(** * validate_vtk.py : a checker for legacy VTK ASCII files

    Shallow embedding of [validate_vtk_file] and [main] of
    [src/validate_vtk.py], and the properties of the specification that
    concern them.

    Python 3 text is a sequence of Unicode code points: a character is its
    code point (an [N]), a [str] is a list of them.  [len], slicing,
    [startswith], [in] and [strip] all work on code points, so the
    embedding does too. *)

From Stdlib Require Import List ZArith NArith Bool Lia Sorting.Sorted.
From Stdlib Require Import Strings.Ascii.
From Stdlib Require Strings.String.
From Stdlib Require Import Numbers.DecimalString Numbers.DecimalZ.
Import ListNotations.

Import String.StringSyntax.

Open Scope Z_scope.

(* ================================================================== *)
(** ** Python text                                                     *)
(* ================================================================== *)

Module PyStr.

Definition char := N.
Definition str := list char.

(** An ASCII literal of the source, as code points. *)
Definition s2u (s : String.string) : str :=
  map N_of_ascii (String.list_ascii_of_string s).

Arguments s2u s%_string_scope.

Definition LF : char := 10%N.

(** A line of a text file as [readlines] returns it: its text and the
    line terminator. *)
Definition ln (s : String.string) : str := s2u s ++ [LF].

Arguments ln s%_string_scope.

Definition str_eqb (a b : str) : bool :=
  if list_eq_dec N.eq_dec a b then true else false.

(** [s.startswith(prefix)] *)
Fixpoint startswith (s prefix : str) {struct prefix} : bool :=
  match prefix, s with
  | [], _ => true
  | _ :: _, [] => false
  | p :: prefix', c :: s' => (c =? p)%N && startswith s' prefix'
  end.

(** [sub in s] for two strings *)
Fixpoint contains (s sub : str) : bool :=
  startswith s sub ||
  match s with
  | [] => false
  | _ :: s' => contains s' sub
  end.

(** [x in l] for a list of strings *)
Definition list_contains (l : list str) (x : str) : bool :=
  existsb (str_eqb x) l.

(** [str.isspace] on one character: the code points CPython's
    [_PyUnicode_IsWhitespace] accepts. *)
Definition is_space (c : char) : bool :=
  ((9 <=? c) && (c <=? 13) || (28 <=? c) && (c <=? 32)
   || (c =? 133) || (c =? 160) || (c =? 5760)
   || (8192 <=? c) && (c <=? 8202)
   || (c =? 8232) || (c =? 8233) || (c =? 8239) || (c =? 8287)
   || (c =? 12288))%N.

(** [s.lstrip()] *)
Fixpoint lstrip (s : str) : str :=
  match s with
  | [] => []
  | c :: s' => if is_space c then lstrip s' else s
  end.

(** [s.rstrip()]: a character is dropped when it is whitespace and nothing
    is left of what follows it. *)
Fixpoint rstrip (s : str) : str :=
  match s with
  | [] => []
  | c :: s' =>
      match rstrip s' with
      | [] => if is_space c then [] else [c]
      | r => c :: r
      end
  end.

(** [s.strip()] *)
Definition strip (s : str) : str := rstrip (lstrip s).

(** [s[:n]] for [n >= 0] *)
Definition slice_to (n : nat) (s : str) : str := firstn n s.

(** [c * n] for a one-character string [c] *)
Definition times (c : char) (n : nat) : str := repeat c n.

(** [str(z)], as an f-string formats an [int]. *)
Definition format_int (z : Z) : str := s2u (NilZero.string_of_int (Z.to_int z)).

Definition is_digit (c : char) : bool := ((48 <=? c) && (c <=? 57))%N.

End PyStr.

Import PyStr.

(* ================================================================== *)
(** ** Exceptions, sequences and files                                 *)
(* ================================================================== *)

Inductive exn : Type :=
| IndexError
| OSError
| UnicodeDecodeError
| SystemExit (code : Z).

Inductive result (A : Type) : Type :=
| Ok (a : A)
| Raise (e : exn).

Arguments Ok {A} a.
Arguments Raise {A} e.

Definition bind {A B : Type} (r : result A) (k : A -> result B) : result B :=
  match r with
  | Ok a => k a
  | Raise e => Raise e
  end.

Notation "x <- r ;; k" := (bind r (fun x => k))
  (at level 61, r at next level, right associativity).

(** [l[i]]: a negative index counts from the end; out of range raises. *)
Definition getitem {A : Type} (l : list A) (i : Z) : result A :=
  let n := Z.of_nat (length l) in
  let j := if i <? 0 then i + n else i in
  if (j <? 0) || (n <=? j) then Raise IndexError
  else match nth_error l (Z.to_nat j) with
       | Some a => Ok a
       | None => Raise IndexError
       end.

(** [range(a, b)] *)
Definition range (a b : Z) : list Z :=
  map (fun k => a + Z.of_nat k) (seq 0 (Z.to_nat (b - a))).

(** What a path names when [validate_vtk_file] looks at it: nothing
    ([os.path.exists] is false), something [open] or [readlines] raises on
    (OSError for a directory or a file without read permission,
    UnicodeDecodeError for bytes that do not decode), or a text file with
    the lines [readlines] returns. *)
Inductive file_state : Type :=
| Absent
| Unreadable (e : exn)
| Text (lines : list str).

Definition filesystem := str -> file_state.

(** The lists [readlines] can return: no line is empty, a line feed ends
    every line but possibly the last, and occurs nowhere else. *)
Fixpoint is_line (s : str) (last : bool) : bool :=
  match s with
  | [] => false
  | [c] => (c =? LF)%N || last
  | c :: s' => negb (c =? LF)%N && is_line s' last
  end.

Fixpoint readlines_shape (lines : list str) : bool :=
  match lines with
  | [] => true
  | [l] => is_line l true
  | l :: rest => is_line l false && readlines_shape rest
  end.

(* ================================================================== *)
(** ** [validate_vtk_file]                                             *)
(* ================================================================== *)

Definition HEADER_PREFIX : str := s2u "# vtk DataFile Version".
Definition CELL_DATA : str := s2u "CELL_DATA".
Definition HASH : str := s2u "#".
Definition LOOKUP_TABLE : str := s2u "LOOKUP_TABLE".

Definition required_sections : list str :=
  [s2u "ASCII"; s2u "DATASET"; s2u "POINTS"; s2u "CELLS"; s2u "CELL_TYPES"].

(** [f"File not found: {filepath}"] *)
Definition not_found_msg (filepath : str) : str :=
  s2u "File not found: " ++ filepath.

Definition header_msg : str := s2u "Missing or invalid VTK version header".

(** [f"Invalid comment in CELL_DATA section at line {n}: {excerpt}"] *)
Definition comment_msg (n : Z) (excerpt : str) : str :=
  s2u "Invalid comment in CELL_DATA section at line " ++ format_int n
  ++ s2u ": " ++ excerpt.

(** [f"Section '{section}' not found in first 20 lines"] *)
Definition section_msg (section : str) : str :=
  s2u "Section '" ++ section ++ s2u "' not found in first 20 lines".

(** The [enumerate] loop that looks for the section: [i] is the index of the
    head of [lines]; the result is [cell_data_idx], [-1] when the loop ends
    without [break]. *)
Fixpoint find_cell_data (i : Z) (lines : list str) : Z :=
  match lines with
  | [] => -1
  | line :: rest =>
      if startswith line CELL_DATA then i else find_cell_data (i + 1) rest
  end.

(** The condition of the [if] in the comment loop.  [and] does not evaluate
    its right operand, and so does not index [lines[i-1]], when the left one
    is false. *)
Definition comment_condition (lines : list str) (i : Z) (line : str)
  : result bool :=
  if startswith line HASH then
    prev <- getitem lines (i - 1) ;;
    Ok (negb (startswith (strip prev) LOOKUP_TABLE))
  else Ok false.

(** The loop [for i in range(cell_data_idx, len(lines))], over the indices
    left to visit, with the list [errors] as it stands. *)
Fixpoint check_comments (lines : list str) (indices : list Z)
  (errors : list str) : result (list str) :=
  match indices with
  | [] => Ok errors
  | i :: indices' =>
      raw <- getitem lines i ;;
      let line := strip raw in
      flagged <- comment_condition lines i line ;;
      let errors :=
        if flagged
        then errors ++ [comment_msg (i + 1) (slice_to 50 line)]
        else errors in
      check_comments lines indices' errors
  end.

(** The inner loop [for section in required_sections] for one line. *)
Definition scan_line (line : str) (found_sections : list str) : list str :=
  fold_left
    (fun found section =>
       if contains line section then found ++ [section] else found)
    required_sections found_sections.

(** [for line in lines[:20]] *)
Definition scan_sections (lines : list str) : list str :=
  fold_left (fun found line => scan_line line found) (firstn 20 lines) [].

(** The last loop: a warning for every section not in [found_sections]. *)
Definition report_missing (found_sections : list str) (warnings : list str)
  : list str :=
  fold_left
    (fun warnings section =>
       if negb (list_contains found_sections section)
       then warnings ++ [section_msg section]
       else warnings)
    required_sections warnings.

(** The body of [validate_vtk_file] from the header check on, on the lines
    read from the file. *)
Definition validate_lines (lines : list str) : result (list str * list str) :=
  let errors := [] in
  let warnings := [] in
  first <- getitem lines 0 ;;
  let errors :=
    if negb (startswith first HEADER_PREFIX)
    then errors ++ [header_msg] else errors in
  let cell_data_idx := find_cell_data 0 lines in
  errors <-
    (if 0 <=? cell_data_idx
     then check_comments lines
            (range cell_data_idx (Z.of_nat (length lines))) errors
     else Ok errors) ;;
  let found_sections := scan_sections lines in
  let warnings := report_missing found_sections warnings in
  Ok (errors, warnings).

Definition validate_vtk_file (fs : filesystem) (filepath : str)
  : result (list str * list str) :=
  match fs filepath with
  | Absent => Ok ([not_found_msg filepath], [])
  | Unreadable e => Raise e
  | Text lines => validate_lines lines
  end.

(* ================================================================== *)
(** ** [main]                                                          *)
(* ================================================================== *)

Definition BULLET : char := 8226%N.

(** [f"   • {message}"] *)
Definition bullet_line (message : str) : str :=
  s2u "   " ++ [BULLET] ++ s2u " " ++ message.

(** [f"❌ ERRORS ({n}):"] *)
Definition errors_heading (n : Z) : str :=
  [10060%N] ++ s2u " ERRORS (" ++ format_int n ++ s2u "):".

Definition no_errors_line : str := [9989%N] ++ s2u " No errors found".

(** [f"⚠️  WARNINGS ({n}):"] *)
Definition warnings_heading (n : Z) : str :=
  [9888%N; 65039%N] ++ s2u "  WARNINGS (" ++ format_int n ++ s2u "):".

Definition status_line (errors : list str) : str :=
  s2u "Status: " ++
  match errors with [] => s2u "VALID" | _ :: _ => s2u "INVALID" end.

Definition usage_line : str :=
  s2u "Usage: python3 validate_vtk.py <vtk_file> [vtk_file2] ...".

(** What the loop body prints for one file, one element per [print], and
    the new value of [total_errors]. *)
Definition report_file (filepath : str) (errors warnings : list str)
  (total_errors : Z) : list str * Z :=
  let out := [ [LF] ++ s2u "Validating: " ++ filepath;
               times 45%N (12 + length filepath)%nat ] in
  let '(out, total_errors) :=
    match errors with
    | _ :: _ =>
        (out ++ [errors_heading (Z.of_nat (length errors))]
             ++ map bullet_line errors,
         total_errors + Z.of_nat (length errors))
    | [] => (out ++ [no_errors_line], total_errors)
    end in
  let out :=
    match warnings with
    | _ :: _ =>
        out ++ [warnings_heading (Z.of_nat (length warnings))]
            ++ map bullet_line warnings
    | [] => out
    end in
  (out ++ [status_line errors], total_errors).

(** The loop [for filepath in sys.argv[1:]]: what has been printed so far
    and [total_errors] are threaded through; an exception of
    [validate_vtk_file] ends the loop and keeps what was printed. *)
Fixpoint main_loop (fs : filesystem) (paths : list str)
  (out : list str) (total_errors : Z) : list str * result Z :=
  match paths with
  | [] => (out, Ok total_errors)
  | filepath :: paths' =>
      match validate_vtk_file fs filepath with
      | Raise e =>
          (out ++ [ [LF] ++ s2u "Validating: " ++ filepath;
                    times 45%N (12 + length filepath)%nat ],
           Raise e)
      | Ok (errors, warnings) =>
          let '(printed, total_errors) :=
            report_file filepath errors warnings total_errors in
          main_loop fs paths' (out ++ printed) total_errors
      end
  end.

Definition summary (files : nat) (total_errors : Z) : list str :=
  [ [LF] ++ times 61%N 50;
    s2u "Total files validated: " ++ format_int (Z.of_nat files);
    s2u "Total errors: " ++ format_int total_errors;
    s2u "Overall result: " ++
      (if 0 <? total_errors then s2u "FAILED" else s2u "PASSED") ].

(** [main()]: standard output and the value returned or the exception
    raised. *)
Definition main (fs : filesystem) (argv : list str) : list str * result Z :=
  if Z.of_nat (length argv) <? 2 then ([usage_line], Raise (SystemExit 1))
  else
    let paths := tl argv in
    match main_loop fs paths [] 0 with
    | (out, Raise e) => (out, Raise e)
    | (out, Ok total_errors) =>
        (out ++ summary (length paths) total_errors,
         Ok (if 0 <? total_errors then 1 else 0))
    end.

(** [sys.exit(main())]: the exit status of the process.  An exception that
    is not [SystemExit] ends the interpreter with status 1. *)
Definition exit_status (r : result Z) : Z :=
  match r with
  | Ok code => code
  | Raise (SystemExit code) => code
  | Raise _ => 1
  end.

Definition run (fs : filesystem) (argv : list str) : list str * Z :=
  let '(out, r) := main fs argv in (out, exit_status r).

(* ================================================================== *)
(** ** The words of the specification                                  *)
(* ================================================================== *)

(** "[s] begins with the literal prefix [p]" *)
Definition begins_with (s p : str) : Prop := exists t, s = p ++ t.

(** "[sub] occurs as a substring anywhere within [s]" *)
Definition occurs_in (sub s : str) : Prop :=
  exists before after, s = before ++ sub ++ after.

(** "[i0] is the index of the first line that begins with CELL_DATA" *)
Definition first_cell_data (lines : list str) (i0 : nat) : Prop :=
  (exists line, nth_error lines i0 = Some line /\ begins_with line CELL_DATA)
  /\ forall j line, (j < i0)%nat -> nth_error lines j = Some line ->
                    ~ begins_with line CELL_DATA.

(** The lookback of the specification: the line before line [i], stripped,
    begins with LOOKUP_TABLE.  Line 0 has no line before it, so this is
    false there: nothing wraps around to the last line. *)
Definition preceded_by_lookup_table (lines : list str) (i : nat) : Prop :=
  exists j prev, i = S j /\ nth_error lines j = Some prev
                 /\ begins_with (strip prev) LOOKUP_TABLE.

(** "the keyword occurs within one of the first 20 lines" *)
Definition section_present (lines : list str) (section : str) : Prop :=
  exists line, In line (firstn 20 lines) /\ occurs_in section line.

(** Following the specification's step 5, with the guarded lookback, for
    comparison with [check_comments]. *)
Definition lookback (lines : list str) (i : nat) : bool :=
  match i with
  | O => false
  | S j =>
      match nth_error lines j with
      | Some prev => startswith (strip prev) LOOKUP_TABLE
      | None => false
      end
  end.

Definition comment_error (lines : list str) (i : nat) : list str :=
  match nth_error lines i with
  | Some raw =>
      if startswith (strip raw) HASH && negb (lookback lines i)
      then [comment_msg (Z.of_nat i + 1) (slice_to 50 (strip raw))]
      else []
  | None => []
  end.

(** Following step 6. *)
Definition section_found (lines : list str) (section : str) : bool :=
  existsb (fun line => contains line section) (firstn 20 lines).

Definition section_warnings (lines : list str) : list str :=
  map section_msg
      (filter (fun section => negb (section_found lines section))
              required_sections).

Definition header_errors (first : str) : list str :=
  if startswith first HEADER_PREFIX then [] else [header_msg].

(** Equality of texts is decidable; it counts the occurrences of a
    message. *)
Definition str_eq_dec : forall a b : str, {a = b} + {a <> b} :=
  list_eq_dec N.eq_dec.

(** "the sum of per-file error counts", over what [validate_vtk_file]
    returned for each file. *)
Definition error_total (results : list (list str * list str)) : Z :=
  fold_right (fun r total => Z.of_nat (length (fst r)) + total) 0 results.

(* ================================================================== *)
(** ** Example files                                                   *)
(* ================================================================== *)

Module Examples.

(** A header, the section, an indented comment, and a comment after a
    LOOKUP_TABLE line. *)
Definition commented : list str :=
  [ ln "# vtk DataFile Version 3.0"; ln "CELL_DATA 1"; ln "  # stray";
    ln "LOOKUP_TABLE default"; ln "# table" ].

(** Comments, and a CELL_DATA line that is indented. *)
Definition indented : list str :=
  [ ln "DATASET POLYDATA"; ln "  CELL_DATA 1"; ln "# note" ].

(** The second scenario of the specification. *)
Definition complete : list str :=
  [ ln "# vtk DataFile Version 3.0"; ln "example"; ln "ASCII";
    ln "DATASET POLYDATA"; ln "POINTS 4 float"; ln "CELLS 1 5";
    ln "CELL_TYPES 1"; ln "CELL_DATA 1"; ln "LOOKUP_TABLE default";
    ln "# this is fine" ].

(** One file system for the examples. *)
Definition files (path : str) : file_state :=
  if str_eqb path (s2u "commented.vtk") then Text commented
  else if str_eqb path (s2u "indented.vtk") then Text indented
  else if str_eqb path (s2u "complete.vtk") then Text complete
  else if str_eqb path (s2u "empty.vtk") then Text []
  else if str_eqb path (s2u "locked.vtk") then Unreadable OSError
  else Absent.

End Examples.

Module RunExamples.

Definition argv : list str :=
  [ s2u "validate_vtk.py"; s2u "complete.vtk"; s2u "commented.vtk";
    s2u "nowhere.vtk" ].

(** What [validate_vtk_file] returns for the three paths of [argv]. *)
Definition results : list (list str * list str) :=
  [ ([], []);
    ([comment_msg 3 (s2u "# stray")], map section_msg required_sections);
    ([not_found_msg (s2u "nowhere.vtk")], []) ].

End RunExamples.

(* ================================================================== *)
(** ** Words for the driver and further example files                  *)
(* ================================================================== *)

(** What [open] and [readlines] raise on a path that exists: OSError or
    UnicodeDecodeError, as [file_state] says. *)
Definition open_errors (fs : filesystem) : Prop :=
  forall path e, fs path = Unreadable e -> e = OSError \/ e = UnicodeDecodeError.

(** The title and the underline [main] prints before it validates a
    file. *)
Definition file_title (filepath : str) : list str :=
  [ [LF] ++ s2u "Validating: " ++ filepath;
    times 45%N (12 + length filepath)%nat ].

(** The lines [main] prints for one file whose validation returned
    [(errors, warnings)]. *)
Definition file_block (filepath : str) (r : list str * list str) : list str :=
  file_title filepath
  ++ match fst r with
     | [] => [no_errors_line]
     | _ :: _ =>
         errors_heading (Z.of_nat (length (fst r))) :: map bullet_line (fst r)
     end
  ++ match snd r with
     | [] => []
     | _ :: _ =>
         warnings_heading (Z.of_nat (length (snd r))) :: map bullet_line (snd r)
     end
  ++ [status_line (fst r)].

(** The blocks of several files, in the order of the paths. *)
Definition run_blocks (paths : list str) (results : list (list str * list str))
  : list str :=
  flat_map (fun pr => file_block (fst pr) (snd pr)) (combine paths results).

(** The test of the comment loop on line [i], with the guarded lookback. *)
Definition flagged (lines : list str) (i : nat) : bool :=
  match nth_error lines i with
  | Some raw => startswith (strip raw) HASH && negb (lookback lines i)
  | None => false
  end.

Module MoreExamples.

(** Two comment lines after a LOOKUP_TABLE line. *)
Definition two_comments : list str :=
  [ ln "# vtk DataFile Version 3.0"; ln "CELL_DATA 2";
    ln "LOOKUP_TABLE default"; ln "# first"; ln "# second" ].

(** Lines added at the end of [Examples.commented]. *)
Definition appended : list str := [ ln "0.5"; ln "# late" ].

(** Two files of 21 lines that differ in the last line only. *)
Definition twenty : list str :=
  ln "# vtk DataFile Version 3.0" :: ln "ASCII" :: repeat (ln "0.0") 18.

Definition long_a : list str := twenty ++ [ln "CELL_DATA 1"].
Definition long_b : list str := twenty ++ [ln "POINTS 3 float"].

(** The files of [Examples.files] and the ones above. *)
Definition files (path : str) : file_state :=
  if str_eqb path (s2u "two.vtk") then Text two_comments
  else if str_eqb path (s2u "longer.vtk")
       then Text (Examples.commented ++ appended)
  else if str_eqb path (s2u "long_a.vtk") then Text long_a
  else if str_eqb path (s2u "long_b.vtk") then Text long_b
  else Examples.files path.

End MoreExamples.

(* ================================================================== *)
(** ** The lists of [validate_vtk_file] as objects                     *)
(* ================================================================== *)

(** [errors], [warnings] and [found_sections] are Python list objects: a
    list display creates a new object, [append] changes an object in place,
    and the function returns references to two of them.  Here the objects
    live in a heap that every call of the function finds and leaves behind,
    so that what one call does to the lists of another can be stated.
    [lines] and [required_sections] are never changed once made and stay
    values. *)

Module Stateful.

Definition ref := nat.

(** The list objects made so far; a reference is a position. *)
Definition heap := list (list str).

Definition deref (h : heap) (a : ref) : option (list str) := nth_error h a.

Fixpoint update (h : heap) (a : ref) (f : list str -> list str) : heap :=
  match h, a with
  | [], _ => []
  | l :: h', O => f l :: h'
  | l :: h', S a' => l :: update h' a' f
  end.

(** A statement: it finds a heap, returns or raises, and leaves a heap. *)
Definition M (A : Type) : Type := heap -> result A * heap.

Definition ret {A : Type} (a : A) : M A := fun h => (Ok a, h).

Definition lift {A : Type} (r : result A) : M A := fun h => (r, h).

Definition bindM {A B : Type} (m : M A) (k : A -> M B) : M B :=
  fun h =>
    match m h with
    | (Ok a, h') => k a h'
    | (Raise e, h') => (Raise e, h')
    end.

Notation "x <-- m ;; k" := (bindM m (fun x => k))
  (at level 61, m at next level, right associativity).

(** A list display [[...]]: a new object, after all the others. *)
Definition new_list (items : list str) : M ref :=
  fun h => (Ok (length h), h ++ [items]).

(** [a.append(x)] *)
Definition list_append (a : ref) (x : str) : M unit :=
  fun h => (Ok tt, update h a (fun l => l ++ [x])).

(** The items of the object [a] as they are now. *)
Definition list_read (a : ref) : M (list str) :=
  fun h => (Ok (nth a h []), h).

(** [for x in l: body] over a sequence that the body does not change. *)
Fixpoint for_each {A : Type} (l : list A) (body : A -> M unit) : M unit :=
  match l with
  | [] => ret tt
  | x :: l' => _ <-- body x ;; for_each l' body
  end.

(** The body of the comment loop, lines 33 to 35. *)
Definition comment_step (lines : list str) (errors : ref) (i : Z) : M unit :=
  raw <-- lift (getitem lines i) ;;
  let line := strip raw in
  flagged <-- lift (comment_condition lines i line) ;;
  if flagged
  then list_append errors (comment_msg (i + 1) (slice_to 50 line))
  else ret tt.

(** Lines 19 to 50, with [errors] and [warnings] as made on lines 10 and
    11. *)
Definition validate_lines (lines : list str) (errors warnings : ref)
  : M (ref * ref) :=
  first <-- lift (getitem lines 0) ;;
  _ <-- (if negb (startswith first HEADER_PREFIX)
         then list_append errors header_msg else ret tt) ;;
  let cell_data_idx := find_cell_data 0 lines in
  _ <-- (if 0 <=? cell_data_idx
         then for_each (range cell_data_idx (Z.of_nat (length lines)))
                       (comment_step lines errors)
         else ret tt) ;;
  found_sections <-- new_list [] ;;
  _ <-- for_each (firstn 20 lines)
          (fun line =>
             for_each required_sections
               (fun section =>
                  if contains line section
                  then list_append found_sections section else ret tt)) ;;
  _ <-- for_each required_sections
          (fun section =>
             found <-- list_read found_sections ;;
             if negb (list_contains found section)
             then list_append warnings (section_msg section) else ret tt) ;;
  ret (errors, warnings).

(** [validate_vtk_file] on a heap: the references it returns, or the
    exception, and the heap it leaves. *)
Definition validate_vtk_file (fs : filesystem) (filepath : str)
  : M (ref * ref) :=
  errors <-- new_list [] ;;
  warnings <-- new_list [] ;;
  match fs filepath with
  | Absent =>
      e <-- new_list [not_found_msg filepath] ;;
      w <-- new_list [] ;;
      ret (e, w)
  | Unreadable e => lift (Raise e)
  | Text lines => validate_lines lines errors warnings
  end.

(** What the caller sees of a call: the items of the two lists returned,
    read in the heap the call left, or the exception.  [None] when a
    reference names no object. *)
Definition observed (out : result (ref * ref) * heap)
  : option (result (list str * list str)) :=
  match out with
  | (Ok (e, w), h) =>
      match deref h e, deref h w with
      | Some errors, Some warnings => Some (Ok (errors, warnings))
      | _, _ => None
      end
  | (Raise x, _) => Some (Raise x)
  end.

(** The references a call returned are new: they name no object of the
    heap [h] the call found, and differ from each other. *)
Definition fresh_in (h : heap) (r : result (ref * ref)) : Prop :=
  match r with
  | Ok (e, w) => (length h <= e)%nat /\ (length h <= w)%nat /\ e <> w
  | Raise _ => True
  end.

End Stateful.

(* ================================================================== *)
(** ** Text                                                            *)
(* ================================================================== *)

Section Text.

Lemma str_eqb_eq (a b : str) : str_eqb a b = true <-> a = b.
Proof.
  unfold str_eqb. destruct (list_eq_dec N.eq_dec a b); split; congruence.
Qed.

Lemma startswith_iff (s p : str) : startswith s p = true <-> begins_with s p.
Proof.
  unfold begins_with. revert s.
  induction p as [|c p IH]; intros s; simpl.
  - split; [intros _; now exists s | reflexivity].
  - destruct s as [|d s].
    + split; [discriminate | intros [t Ht]; discriminate].
    + rewrite andb_true_iff, N.eqb_eq, IH. split.
      * intros [-> [t ->]]. now exists t.
      * intros [t Ht]. injection Ht as -> ->. split; [reflexivity | now exists t].
Qed.

Lemma startswith_false_iff (s p : str) :
  startswith s p = false <-> ~ begins_with s p.
Proof.
  rewrite <- startswith_iff. destruct (startswith s p); split; congruence.
Qed.

Lemma contains_iff (s sub : str) : contains s sub = true <-> occurs_in sub s.
Proof.
  unfold occurs_in. induction s as [|c s IH].
  - simpl. rewrite orb_false_r, startswith_iff. split.
    + intros [t Ht]. now exists [], t.
    + intros [before [after H]].
      destruct before; [now exists after | discriminate].
  - cbn [contains]. rewrite orb_true_iff, IH, startswith_iff. split.
    + intros [[t Ht] | [before [after H]]].
      * now exists [], t.
      * exists (c :: before), after. simpl. now rewrite H.
    + intros [before [after H]]. destruct before as [|b before].
      * left. now exists after.
      * right. injection H as _ H. now exists before, after.
Qed.

Lemma rstrip_cons (c : char) (s : str) :
  is_space c = false -> rstrip (c :: s) = c :: rstrip s.
Proof.
  intros Hc. simpl. rewrite Hc. now destruct (rstrip s).
Qed.

(** [rstrip] is [lstrip] read from the other end. *)
Lemma lstrip_snoc (s : str) (c : char) :
  lstrip (s ++ [c])
  = match lstrip s with
    | [] => if is_space c then [] else [c]
    | r => r ++ [c]
    end.
Proof.
  induction s as [|d s IH]; simpl.
  - now destruct (is_space c).
  - now destruct (is_space d).
Qed.

Lemma rstrip_rev (s : str) : rstrip s = rev (lstrip (rev s)).
Proof.
  induction s as [|c s IH]; [reflexivity|].
  cbn [rstrip rev]. rewrite lstrip_snoc, IH.
  destruct (lstrip (rev s)) as [|d r]; cbn [rev].
  - now destruct (is_space c).
  - rewrite rev_app_distr. cbn [rev app].
    destruct (rev r ++ [d]) eqn:E; [| reflexivity].
    now destruct (rev r).
Qed.

Lemma strip_cons (c : char) (s : str) :
  is_space c = false -> strip (c :: s) = c :: rstrip s.
Proof.
  intros Hc. unfold strip. simpl. rewrite Hc. now apply rstrip_cons.
Qed.

(** A line that begins with CELL_DATA still does once stripped, and does
    not begin with whitespace. *)
Lemma cell_data_line_stripped (line : str) :
  begins_with line CELL_DATA ->
  begins_with (strip line) CELL_DATA
  /\ startswith (strip line) HASH = false
  /\ (forall c rest, line = c :: rest -> is_space c = false).
Proof.
  intros [t ->]. cbn [CELL_DATA s2u String.list_ascii_of_string map app].
  rewrite strip_cons by reflexivity.
  rewrite !rstrip_cons by reflexivity.
  repeat split.
  - now exists (rstrip t).
  - intros c rest [= <- _]. reflexivity.
Qed.

Lemma s2u_inj (a b : String.string) : s2u a = s2u b -> a = b.
Proof.
  unfold s2u. intros H.
  rewrite <- (String.string_of_list_ascii_of_string a),
          <- (String.string_of_list_ascii_of_string b).
  f_equal.
  revert H. generalize (String.list_ascii_of_string a) as la.
  generalize (String.list_ascii_of_string b) as lb.
  intros lb la; revert lb.
  induction la as [|x la IH]; intros [|y lb]; simpl; try discriminate; auto.
  intros [= Hxy Hrest]. f_equal; [|now apply IH].
  rewrite <- (ascii_N_embedding x), <- (ascii_N_embedding y). now rewrite Hxy.
Qed.

Lemma to_int_not_nil (z : Z) :
  Z.to_int z <> Decimal.Pos Decimal.Nil /\ Z.to_int z <> Decimal.Neg Decimal.Nil.
Proof.
  destruct z as [|p|p]; simpl; split; try discriminate;
    intros [= H]; now apply (DecimalPos.Unsigned.to_uint_nonnil p).
Qed.

Lemma format_int_inj (a b : Z) : format_int a = format_int b -> a = b.
Proof.
  unfold format_int. intros H. apply s2u_inj in H.
  apply DecimalZ.to_int_inj.
  apply (f_equal NilZero.int_of_string) in H.
  destruct (to_int_not_nil a), (to_int_not_nil b).
  rewrite !NilZero.isi in H by assumption. congruence.
Qed.

Lemma uint_digits (d : Decimal.uint) :
  Forall (fun c => is_digit c = true) (s2u (NilEmpty.string_of_uint d)).
Proof.
  induction d; simpl; constructor; auto.
Qed.

Lemma format_int_digits (z : Z) :
  0 <= z -> Forall (fun c => is_digit c = true) (format_int z).
Proof.
  intros Hz. unfold format_int.
  destruct z as [|p|p]; [| |lia]; simpl.
  - repeat constructor.
  - unfold NilZero.string_of_uint.
    pose proof (uint_digits (Pos.to_uint p)) as H.
    destruct (Pos.to_uint p); auto. repeat constructor.
Qed.

(** Two texts that agree, each a run of digits followed by a character that
    is not a digit, have the same run of digits and the same rest. *)
Lemma digits_then_other (d1 d2 : str) (c1 c2 : char) (r1 r2 : str) :
  Forall (fun c => is_digit c = true) d1 ->
  Forall (fun c => is_digit c = true) d2 ->
  is_digit c1 = false -> is_digit c2 = false ->
  d1 ++ c1 :: r1 = d2 ++ c2 :: r2 -> d1 = d2 /\ r1 = r2.
Proof.
  intros H1. revert d2. induction H1 as [|x d1 Hx _ IH]; intros d2 H2 Hc1 Hc2 E.
  - destruct H2 as [|y d2 Hy _]; simpl in E.
    + injection E as _ E. auto.
    + injection E as E _. congruence.
  - destruct H2 as [|y d2 Hy H2]; simpl in E.
    + injection E as E _. congruence.
    + injection E as -> E. destruct (IH d2 H2 Hc1 Hc2 E) as [-> ->]. auto.
Qed.

Lemma comment_msg_inj (n n' : Z) (e e' : str) :
  0 <= n -> 0 <= n' -> comment_msg n e = comment_msg n' e' -> n = n' /\ e = e'.
Proof.
  intros Hn Hn' E. unfold comment_msg in E.
  apply app_inv_head in E.
  change (s2u ": ") with [58%N; 32%N] in E. cbn [app] in E.
  apply digits_then_other in E;
    [| now apply format_int_digits | now apply format_int_digits
     | reflexivity | reflexivity].
  destruct E as [E1 E2]. apply format_int_inj in E1.
  injection E2 as E2. auto.
Qed.

Lemma comment_msg_not_header (n : Z) (e : str) : comment_msg n e <> header_msg.
Proof.
  intros E. apply (f_equal (hd 0%N)) in E. discriminate E.
Qed.

Lemma section_msg_inj (a b : str) : section_msg a = section_msg b -> a = b.
Proof.
  unfold section_msg. intros E.
  apply app_inv_head in E. now apply app_inv_tail in E.
Qed.

End Text.

(* ================================================================== *)
(** ** The loops of [validate_vtk_file]                                *)
(* ================================================================== *)

Section Loops.

Lemma getitem_nth_error {A : Type} (l : list A) (k : nat) (a : A) :
  nth_error l k = Some a -> getitem l (Z.of_nat k) = Ok a.
Proof.
  intros H. unfold getitem.
  assert (k < length l)%nat as Hk by (apply nth_error_Some; congruence).
  destruct (Z.of_nat k <? 0) eqn:E; [lia|].
  destruct ((Z.of_nat k <? 0) || (Z.of_nat (length l) <=? Z.of_nat k)) eqn:F.
  - apply orb_true_iff in F. lia.
  - now rewrite Nat2Z.id, H.
Qed.

Lemma getitem_empty {A : Type} (i : Z) : getitem (@nil A) i = Raise IndexError.
Proof.
  unfold getitem. simpl.
  destruct (i <? 0) eqn:E.
  - replace (i + 0 <? 0) with true by lia. reflexivity.
  - destruct (0 <=? i) eqn:F; [| lia]. now rewrite orb_true_r.
Qed.

Lemma range_of_nat (a b : nat) :
  range (Z.of_nat a) (Z.of_nat b) = map Z.of_nat (seq a (b - a)).
Proof.
  unfold range.
  replace (Z.to_nat (Z.of_nat b - Z.of_nat a)) with (b - a)%nat by lia.
  rewrite <- (Nat.add_0_r a) at 2.
  generalize (b - a)%nat as n. generalize 0%nat as s.
  intros s n; revert s.
  induction n as [|n IH]; intros s; simpl; [reflexivity|].
  f_equal; [lia|]. rewrite IH. now rewrite Nat.add_succ_r.
Qed.

(** *** Locating the section *)

Lemma find_cell_data_first (lines : list str) :
  forall k i0, first_cell_data lines i0 ->
               find_cell_data k lines = k + Z.of_nat i0.
Proof.
  induction lines as [|l lines IH]; intros k i0 [[line [Hn Hb]] Hmin].
  - destruct i0; discriminate.
  - cbn [find_cell_data]. destruct i0 as [|i0]; cbn [nth_error] in Hn.
    + injection Hn as ->. apply startswith_iff in Hb. rewrite Hb. lia.
    + assert (startswith l CELL_DATA = false) as Hl.
      { apply startswith_false_iff. apply (Hmin 0%nat l); [lia | reflexivity]. }
      rewrite Hl, (IH (k + 1) i0); [lia|].
      split; [now exists line|].
      intros j x Hj Hx. apply (Hmin (S j) x); [lia | exact Hx].
Qed.

Lemma find_cell_data_none (lines : list str) :
  forall k, (forall line, In line lines -> ~ begins_with line CELL_DATA) ->
            find_cell_data k lines = -1.
Proof.
  induction lines as [|l lines IH]; intros k H; cbn [find_cell_data];
    [reflexivity|].
  assert (startswith l CELL_DATA = false) as Hl.
  { apply startswith_false_iff, H. now left. }
  rewrite Hl. apply IH. intros line Hin. apply H. now right.
Qed.

Lemma first_cell_data_cases (lines : list str) :
  (forall line, In line lines -> ~ begins_with line CELL_DATA)
  \/ exists i0, first_cell_data lines i0.
Proof.
  induction lines as [|l lines IH].
  - left. intros line [].
  - destruct (startswith l CELL_DATA) eqn:Hl.
    + right. exists 0%nat. split.
      * exists l. split; [reflexivity | now apply startswith_iff].
      * intros j line Hj. lia.
    + apply startswith_false_iff in Hl. destruct IH as [IH | [i0 [[x [Hx Hb]] Hmin]]].
      * left. intros line [<- | Hin]; auto.
      * right. exists (S i0). split; [now exists x|].
        intros [|j] line Hj Hn; simpl in Hn.
        -- now injection Hn as <-.
        -- apply (Hmin j line); [lia | exact Hn].
Qed.

Lemma first_cell_data_unique (lines : list str) (i j : nat) :
  first_cell_data lines i -> first_cell_data lines j -> i = j.
Proof.
  intros [[x [Hx Hbx]] Hi] [[y [Hy Hby]] Hj].
  destruct (Nat.lt_trichotomy i j) as [H | [H | H]]; [| exact H |].
  - exfalso. now apply (Hj i x).
  - exfalso. now apply (Hi j y).
Qed.

(** *** The comment loop *)

(** On indices inside the file, none of which is a line 0 that begins with
    "#" once stripped, the loop never indexes [lines[-1]]: it returns, and
    appends what the guarded lookback of the specification gives. *)
Lemma check_comments_spec (lines : list str) (indices : list nat) :
  forall errors,
    (forall i, In i indices -> (i < length lines)%nat) ->
    (In 0%nat indices ->
     forall raw, nth_error lines 0 = Some raw -> startswith (strip raw) HASH = false) ->
    check_comments lines (map Z.of_nat indices) errors
    = Ok (errors ++ flat_map (comment_error lines) indices).
Proof.
  induction indices as [|i indices IH]; intros errors Hlen H0; simpl.
  - now rewrite List.app_nil_r.
  - assert (i < length lines)%nat as Hi by (apply Hlen; now left).
    destruct (nth_error lines i) as [raw|] eqn:Hraw;
      [| apply nth_error_None in Hraw; lia].
    rewrite (getitem_nth_error _ _ _ Hraw). cbn [bind].
    unfold comment_condition, comment_error. rewrite Hraw.
    destruct (startswith (strip raw) HASH) eqn:Hhash; cbn [andb].
    + destruct i as [|j].
      * rewrite (H0 (or_introl eq_refl) raw Hraw) in Hhash. discriminate.
      * replace (Z.of_nat (S j) - 1) with (Z.of_nat j) by lia.
        destruct (nth_error lines j) as [prev|] eqn:Hprev;
          [| apply nth_error_None in Hprev; lia].
        rewrite (getitem_nth_error _ _ _ Hprev). cbn [bind lookback].
        rewrite Hprev.
        rewrite IH; [| intros k Hk; apply Hlen; now right
                     | intros Hin; apply H0; now right].
        destruct (startswith (strip prev) LOOKUP_TABLE); cbn [negb];
          now rewrite <- ?List.app_assoc.
    + cbn [bind].
      rewrite IH; [| intros k Hk; apply Hlen; now right
                   | intros Hin; apply H0; now right].
      reflexivity.
Qed.

(** *** The section loops *)

Lemma fold_left_append {A B : Type} (p : A -> bool) (f : A -> B) (l : list A) :
  forall acc,
    fold_left (fun acc x => if p x then acc ++ [f x] else acc) l acc
    = acc ++ map f (filter p l).
Proof.
  induction l as [|x l IH]; intros acc; simpl.
  - now rewrite List.app_nil_r.
  - rewrite IH. destruct (p x); simpl; now rewrite <- ?List.app_assoc.
Qed.

Lemma scan_line_spec (line : str) (found : list str) :
  scan_line line found = found ++ filter (contains line) required_sections.
Proof.
  unfold scan_line.
  rewrite (fold_left_append (contains line) (fun s => s)). now rewrite map_id.
Qed.

Lemma scan_fold_in (section : str) (ls : list str) :
  forall found,
    In section (fold_left (fun found line => scan_line line found) ls found)
    <-> In section found
        \/ (In section required_sections
            /\ existsb (fun line => contains line section) ls = true).
Proof.
  induction ls as [|l ls IH]; intros found; cbn [fold_left existsb].
  - split; [auto | intros [H | [_ H]]; [exact H | discriminate]].
  - rewrite IH, scan_line_spec, in_app_iff, filter_In, orb_true_iff. tauto.
Qed.

Lemma list_contains_iff (l : list str) (x : str) :
  list_contains l x = true <-> In x l.
Proof.
  unfold list_contains. rewrite existsb_exists. split.
  - intros [y [Hy E]]. apply str_eqb_eq in E. now subst.
  - intros H. exists x. split; [exact H | now apply str_eqb_eq].
Qed.

Lemma found_sections_spec (lines : list str) (section : str) :
  In section required_sections ->
  list_contains (scan_sections lines) section = section_found lines section.
Proof.
  intros Hreq. apply eq_true_iff_eq.
  rewrite list_contains_iff. unfold scan_sections, section_found.
  rewrite scan_fold_in. simpl. tauto.
Qed.

Lemma report_missing_spec (lines : list str) :
  report_missing (scan_sections lines) [] = section_warnings lines.
Proof.
  unfold report_missing, section_warnings.
  rewrite (fold_left_append
             (fun s => negb (list_contains (scan_sections lines) s)) section_msg).
  cbn [app]. f_equal. apply filter_ext_in.
  intros s Hs. now rewrite found_sections_spec.
Qed.

Lemma section_found_iff (lines : list str) (section : str) :
  section_found lines section = true <-> section_present lines section.
Proof.
  unfold section_found, section_present. rewrite existsb_exists.
  split; intros [line [Hin H]]; exists line; split; auto;
    now apply contains_iff.
Qed.

End Loops.

(* ================================================================== *)
(** ** [validate_lines] against the specification's steps 3 to 6       *)
(* ================================================================== *)

Section Validate.

Lemma lookback_iff (lines : list str) (i : nat) :
  lookback lines i = true <-> preceded_by_lookup_table lines i.
Proof.
  unfold lookback, preceded_by_lookup_table. destruct i as [|j].
  - split; [discriminate | intros [j [prev [E _]]]; discriminate].
  - destruct (nth_error lines j) as [prev|] eqn:Hprev.
    + rewrite startswith_iff. split.
      * intros H. now exists j, prev.
      * intros [k [p [E [Hp H]]]]. injection E as <-. congruence.
    + split; [discriminate | intros [k [p [E [Hp _]]]]].
      injection E as <-. congruence.
Qed.

Lemma header_step (first : str) :
  (if negb (startswith first HEADER_PREFIX) then [] ++ [header_msg] else [])
  = header_errors first.
Proof.
  unfold header_errors. now destruct (startswith first HEADER_PREFIX).
Qed.

(** A file with a CELL_DATA line: the header error if any, then the comment
    errors of the lines from the first CELL_DATA line on, in ascending
    order; and the section warnings. *)
Lemma validate_lines_with_section (first : str) (rest : list str) (i0 : nat) :
  first_cell_data (first :: rest) i0 ->
  validate_lines (first :: rest)
  = Ok (header_errors first
          ++ flat_map (comment_error (first :: rest))
                      (seq i0 (length (first :: rest) - i0)),
        section_warnings (first :: rest)).
Proof.
  intros Hfirst. set (lines := first :: rest) in *.
  unfold validate_lines.
  assert (getitem lines 0 = Ok first) as ->
      by exact (getitem_nth_error lines 0%nat first eq_refl).
  cbn [bind]. rewrite header_step.
  rewrite (find_cell_data_first lines 0 i0 Hfirst). cbn [Z.add].
  assert ((0 <=? Z.of_nat i0) = true) as -> by (apply Z.leb_le; lia).
  rewrite range_of_nat, check_comments_spec.
  - cbn [bind]. now rewrite report_missing_spec.
  - intros i Hi. apply in_seq in Hi.
    destruct Hfirst as [[line [Hline _]] _].
    assert (i0 < length lines)%nat by (apply nth_error_Some; congruence).
    lia.
  - intros Hin raw Hraw. apply in_seq in Hin.
    assert (i0 = 0%nat) as -> by lia.
    destruct Hfirst as [[line [Hline Hb]] _].
    assert (raw = line) as -> by congruence.
    now apply cell_data_line_stripped.
Qed.

(** A file without a CELL_DATA line: the comment loop does not run. *)
Lemma validate_lines_without_section (first : str) (rest : list str) :
  (forall line, In line (first :: rest) -> ~ begins_with line CELL_DATA) ->
  validate_lines (first :: rest)
  = Ok (header_errors first, section_warnings (first :: rest)).
Proof.
  intros Hnone. set (lines := first :: rest) in *.
  unfold validate_lines.
  assert (getitem lines 0 = Ok first) as ->
      by exact (getitem_nth_error lines 0%nat first eq_refl).
  cbn [bind]. rewrite header_step.
  rewrite (find_cell_data_none lines 0 Hnone).
  replace (0 <=? -1) with false by reflexivity.
  cbn [bind]. now rewrite report_missing_spec.
Qed.

(** A file that is not empty: the function returns; its errors are the
    header error, if any, then comment errors of lines from the section
    start on; its warnings are the section warnings. *)
Lemma validate_lines_shape (first : str) (rest : list str) :
  exists comments,
    validate_lines (first :: rest)
    = Ok (header_errors first ++ comments, section_warnings (first :: rest))
    /\ forall m, In m comments ->
         exists i0 i, first_cell_data (first :: rest) i0 /\ (i0 <= i)%nat
                      /\ In m (comment_error (first :: rest) i).
Proof.
  destruct (first_cell_data_cases (first :: rest)) as [Hnone | [i0 Hi0]].
  - exists []. rewrite validate_lines_without_section by assumption.
    rewrite List.app_nil_r. split; [reflexivity | intros m []].
  - eexists. split; [exact (validate_lines_with_section _ _ _ Hi0) |].
    intros m Hin. apply in_flat_map in Hin. destruct Hin as [i [Hi Hin]].
    apply in_seq in Hi. exists i0, i.
    split; [exact Hi0 | split; [lia | exact Hin]].
Qed.

Lemma validate_lines_returns (first : str) (rest : list str) :
  exists errors warnings,
    validate_lines (first :: rest) = Ok (errors, warnings).
Proof.
  destruct (validate_lines_shape first rest) as [comments [Hv _]]. eauto.
Qed.

Lemma in_header_errors (first m : str) :
  In m (header_errors first) <->
  m = header_msg /\ ~ begins_with first HEADER_PREFIX.
Proof.
  unfold header_errors.
  destruct (startswith first HEADER_PREFIX) eqn:H; simpl.
  - apply startswith_iff in H. tauto.
  - apply startswith_false_iff in H. intuition congruence.
Qed.

Lemma in_comment_error (lines : list str) (i : nat) (m : str) :
  In m (comment_error lines i) <->
  exists raw, nth_error lines i = Some raw
              /\ begins_with (strip raw) HASH
              /\ ~ preceded_by_lookup_table lines i
              /\ m = comment_msg (Z.of_nat i + 1) (slice_to 50 (strip raw)).
Proof.
  pose proof (lookback_iff lines i) as Hlb.
  unfold comment_error.
  destruct (nth_error lines i) as [raw|].
  - destruct (startswith (strip raw) HASH) eqn:Hh; cbn [andb].
    + apply startswith_iff in Hh.
      destruct (lookback lines i); cbn [negb In]; split.
      * intros [].
      * intros [r [_ [_ [H _]]]]. elim H. now apply Hlb.
      * intros [<- | []]. exists raw. repeat split; auto.
        intros H. apply Hlb in H. discriminate.
      * intros [r [[= <-] [_ [_ ->]]]]. now left.
    + apply startswith_false_iff in Hh. split; [intros [] |].
      intros [r [[= <-] [H _]]]. contradiction.
  - split; [intros [] | intros [r [H _]]; discriminate].
Qed.

End Validate.

(* ================================================================== *)
(** ** Properties of [validate_vtk_file]                               *)
(* ================================================================== *)

Section Properties.

Variable fs : filesystem.

(** The two ways [validate_vtk_file] is looked at: through the file state
    of its path. *)
Ltac read_file Hfs := unfold validate_vtk_file; rewrite Hfs.
Ltac read_file_in Hfs Hv := unfold validate_vtk_file in Hv; rewrite Hfs in Hv.

Lemma first_cell_data_of_find (lines : list str) (i0 : nat) :
  find_cell_data 0 lines = Z.of_nat i0 -> first_cell_data lines i0.
Proof.
  intros H. destruct (first_cell_data_cases lines) as [Hnone | [j Hj]].
  - rewrite (find_cell_data_none lines 0 Hnone) in H. lia.
  - rewrite (find_cell_data_first lines 0 j Hj) in H.
    assert (j = i0) as <- by lia. exact Hj.
Qed.

Lemma no_section_of_find (lines : list str) :
  find_cell_data 0 lines = -1 ->
  forall line, In line lines -> ~ begins_with line CELL_DATA.
Proof.
  intros H. destruct (first_cell_data_cases lines) as [Hnone | [j Hj]].
  - exact Hnone.
  - rewrite (find_cell_data_first lines 0 j Hj) in H. lia.
Qed.

(** The message of a comment error names its line: a negative number is
    never printed, and two messages that agree agree on the number and on
    the excerpt. *)
Lemma comment_msg_line (n : Z) (i : nat) (e e' : str) :
  comment_msg n e = comment_msg (Z.of_nat i + 1) e' ->
  n = Z.of_nat i + 1 /\ e = e'.
Proof.
  intros E. destruct (Z.lt_ge_cases n 0) as [Hneg | Hpos].
  - exfalso. unfold comment_msg in E. apply app_inv_head in E.
    assert (Forall (fun c => is_digit c = true) (format_int (Z.of_nat i + 1)))
      as Hd by (apply format_int_digits; lia).
    destruct n as [|p|p]; try lia.
    unfold format_int at 1 in E. cbn in E.
    destruct Hd as [|d ds Hdig _]; cbn in E.
    + discriminate E.
    + injection E as E _. subst d. discriminate Hdig.
  - apply comment_msg_inj; [exact Hpos | lia | exact E].
Qed.

(** Every error the function returns for a readable file is the header
    error or the comment error of one line from the section start on. *)
Lemma errors_of_validate_lines (lines : list str) (errors warnings : list str) :
  validate_lines lines = Ok (errors, warnings) ->
  forall m, In m errors ->
    m = header_msg
    \/ exists i0 i, first_cell_data lines i0 /\ (i0 <= i)%nat
                    /\ In m (comment_error lines i).
Proof.
  intros Hv m Hin. destruct lines as [|first rest].
  - unfold validate_lines in Hv. rewrite getitem_empty in Hv. discriminate.
  - destruct (validate_lines_shape first rest) as [comments [Hshape Hc]].
    rewrite Hshape in Hv. injection Hv as <- _.
    apply in_app_iff in Hin. destruct Hin as [Hin | Hin].
    + apply in_header_errors in Hin. tauto.
    + right. now apply Hc.
Qed.

(** Without a line that begins with CELL_DATA no returned error is a
    comment error. *)
Lemma no_section_no_comment_error (lines errors warnings : list str) :
  (forall line, In line lines -> ~ begins_with line CELL_DATA) ->
  validate_lines lines = Ok (errors, warnings) ->
  forall n excerpt, ~ In (comment_msg n excerpt) errors.
Proof.
  intros Hnone Hv n excerpt Hin.
  destruct (errors_of_validate_lines _ _ _ Hv _ Hin)
    as [E | [i0 [_ [[[line [Hline Hb]] _] _]]]].
  - now apply comment_msg_not_header in E.
  - apply (Hnone line); [now apply nth_error_In with i0 | exact Hb].
Qed.

(** C1.  In a readable file with a line that begins with CELL_DATA, take a
    line at or after the first such line whose stripped text begins with
    "#".  The function returns, and its errors hold a message
    "Invalid comment in CELL_DATA section at line n: ..." with n the
    1-based index of that line if and only if the line before it, stripped,
    does not begin with LOOKUP_TABLE; line 0 has no line before it, and the
    last line never stands in for one. *)
Theorem comment_error_iff_not_after_lookup_table
  (path : str) (lines : list str) (i0 i : nat) (raw : str) :
  fs path = Text lines ->
  first_cell_data lines i0 ->
  (i0 <= i)%nat ->
  nth_error lines i = Some raw ->
  begins_with (strip raw) HASH ->
  exists errors warnings,
    validate_vtk_file fs path = Ok (errors, warnings)
    /\ ((exists excerpt, In (comment_msg (Z.of_nat i + 1) excerpt) errors)
        <-> ~ preceded_by_lookup_table lines i).
Proof.
  intros Hfs Hfirst Hle Hraw Hhash. read_file Hfs.
  destruct lines as [|first rest]; [destruct i; discriminate|].
  rewrite (validate_lines_with_section _ _ _ Hfirst).
  eexists _, _. split; [reflexivity|]. split.
  - intros [excerpt Hin]. apply in_app_iff in Hin. destruct Hin as [Hin | Hin].
    + apply in_header_errors in Hin. destruct Hin as [E _].
      now apply comment_msg_not_header in E.
    + apply in_flat_map in Hin. destruct Hin as [j [_ Hin]].
      apply in_comment_error in Hin. destruct Hin as [r [_ [_ [Hnot E]]]].
      apply comment_msg_line in E. destruct E as [E _].
      assert (j = i) as -> by lia. exact Hnot.
  - intros Hnot. exists (slice_to 50 (strip raw)).
    apply in_app_iff. right. apply in_flat_map. exists i. split.
    + apply in_seq.
      assert (i < length (first :: rest))%nat
        by (apply nth_error_Some; congruence).
      lia.
    + apply in_comment_error. exists raw. auto.
Qed.

(** C5.  A readable file with no line that begins with CELL_DATA: the
    function returns unless the file is empty, and no error it returns is a
    CELL_DATA comment error, whatever lines begin with "#". *)
Theorem no_cell_data_no_comment_error (path : str) (lines : list str) :
  fs path = Text lines ->
  (forall line, In line lines -> ~ begins_with line CELL_DATA) ->
  (lines <> [] ->
   exists errors warnings, validate_vtk_file fs path = Ok (errors, warnings))
  /\ forall errors warnings,
       validate_vtk_file fs path = Ok (errors, warnings) ->
       forall n excerpt, ~ In (comment_msg n excerpt) errors.
Proof.
  intros Hfs Hnone. read_file Hfs. split.
  - destruct lines as [|first rest]; [congruence|].
    intros _. apply validate_lines_returns.
  - intros errors warnings. now apply no_section_no_comment_error.
Qed.

(** C6.  A path at which nothing exists: one error, "File not found: "
    followed by the path, and no warning. *)
Theorem missing_file_reported (path : str) :
  fs path = Absent ->
  validate_vtk_file fs path = Ok ([s2u "File not found: " ++ path], []).
Proof.
  intros Hfs. now read_file Hfs.
Qed.

(** C7.  A readable file that is not empty: the function returns, and the
    header error is among its errors if and only if the first line does not
    begin with "# vtk DataFile Version". *)
Theorem header_error_iff (path : str) (first : str) (rest : list str) :
  fs path = Text (first :: rest) ->
  exists errors warnings,
    validate_vtk_file fs path = Ok (errors, warnings)
    /\ (In (s2u "Missing or invalid VTK version header") errors
        <-> ~ begins_with first (s2u "# vtk DataFile Version")).
Proof.
  intros Hfs. read_file Hfs.
  destruct (validate_lines_shape first rest) as [comments [Hv Hc]].
  eexists _, _. split; [exact Hv|].
  fold header_msg HEADER_PREFIX. rewrite in_app_iff, in_header_errors. split.
  - intros [[_ H] | Hin]; [exact H|].
    destruct (Hc _ Hin) as [i0 [i [_ [_ Hm]]]].
    apply in_comment_error in Hm. destruct Hm as [r [_ [_ [_ E]]]].
    symmetry in E. now apply comment_msg_not_header in E.
  - intros Hnot. left. now split.
Qed.

(** C10.  The section start is looked for on the raw line.  The line the
    search stops at begins with CELL_DATA and so with no whitespace; and a
    file in which every line that looks like CELL_DATA once stripped is
    indented gets no CELL_DATA comment error, whatever lines begin with
    "#". *)
Theorem indented_cell_data_starts_no_section (path : str) (lines : list str) :
  fs path = Text lines ->
  (forall i0, find_cell_data 0 lines = Z.of_nat i0 ->
     exists line, nth_error lines i0 = Some line
                  /\ begins_with line CELL_DATA
                  /\ forall c rest, line = c :: rest -> is_space c = false)
  /\ ((forall line, In line lines -> begins_with (strip line) CELL_DATA ->
         exists c rest, line = c :: rest /\ is_space c = true) ->
      (lines <> [] ->
       exists errors warnings, validate_vtk_file fs path = Ok (errors, warnings))
      /\ forall errors warnings,
           validate_vtk_file fs path = Ok (errors, warnings) ->
           forall n excerpt, ~ In (comment_msg n excerpt) errors).
Proof.
  intros Hfs. split.
  - intros i0 Hfind. apply first_cell_data_of_find in Hfind.
    destruct Hfind as [[line [Hline Hb]] _]. exists line.
    split; [exact Hline | split; [exact Hb |]].
    now apply cell_data_line_stripped.
  - intros Hind.
    assert (forall line, In line lines -> ~ begins_with line CELL_DATA) as Hnone.
    { intros line Hin Hb.
      destruct (cell_data_line_stripped line Hb) as [Hs [_ Hc]].
      destruct (Hind line Hin Hs) as [c [rest [E Hsp]]].
      rewrite (Hc c rest E) in Hsp. discriminate. }
    read_file Hfs. split.
    + destruct lines as [|first rest]; [congruence|].
      intros _. apply validate_lines_returns.
    + intros errors warnings. now apply no_section_no_comment_error.
Qed.

(** C3, as the code has it.  Every CELL_DATA comment error the function
    returns is the message of a line of the file, with that line's 1-based
    number and, as excerpt, the first 50 characters of the line after
    [strip]. *)
Theorem comment_error_excerpt_is_stripped
  (path : str) (lines errors warnings : list str) (n : Z) (excerpt : str) :
  fs path = Text lines ->
  validate_vtk_file fs path = Ok (errors, warnings) ->
  In (comment_msg n excerpt) errors ->
  exists i raw,
    nth_error lines i = Some raw
    /\ n = Z.of_nat i + 1
    /\ excerpt = slice_to 50 (strip raw).
Proof.
  intros Hfs Hv Hin. read_file_in Hfs Hv.
  destruct (errors_of_validate_lines _ _ _ Hv _ Hin) as [E | [i0 [i [_ [_ Hc]]]]].
  - now apply comment_msg_not_header in E.
  - apply in_comment_error in Hc. destruct Hc as [raw [Hraw [_ [_ E]]]].
    apply comment_msg_line in E. destruct E as [-> ->].
    now exists i, raw.
Qed.

(** The empty file is the only readable file on which the function
    raises. *)
Lemma readable_file_raises_only_if_empty
  (path : str) (lines : list str) (e : exn) :
  fs path = Text lines ->
  validate_vtk_file fs path = Raise e -> lines = [] /\ e = IndexError.
Proof.
  intros Hfs Hv. read_file_in Hfs Hv.
  destruct lines as [|first rest].
  - split; [reflexivity|]. unfold validate_lines in Hv.
    rewrite getitem_empty in Hv. now injection Hv as <-.
  - destruct (validate_lines_returns first rest) as [errs [warns H]].
    congruence.
Qed.

End Properties.

(** C2.  On the empty file the header check indexes [lines[0]] of an empty
    list: the function raises IndexError and returns no findings. *)
Theorem empty_file_raises (path : str) :
  validate_vtk_file (fun _ => Text []) path = Raise IndexError.
Proof. reflexivity. Qed.

(** C3 as stated fails: in this file line 3 is "  # stray" and a line feed;
    the error quotes "# stray", not the beginning of the raw line. *)
Lemma excerpt_is_not_of_raw_line :
  let lines := [ ln "# vtk DataFile Version 3.0"; ln "CELL_DATA 1";
                 ln "  # stray" ] in
  validate_vtk_file (fun _ => Text lines) (s2u "stray.vtk")
  = Ok ([comment_msg 3 (s2u "# stray")], map section_msg required_sections)
  /\ nth_error lines 2 = Some (ln "  # stray")
  /\ comment_msg 3 (s2u "# stray")
     <> comment_msg 3 (slice_to 50 (ln "  # stray")).
Proof.
  split; [reflexivity | split; [reflexivity |]].
  intros E. apply comment_msg_inj in E; [| lia | lia].
  destruct E as [_ E]. discriminate E.
Qed.

Lemma comment_error_iff_not_after_lookup_table_witness :
  exists errors warnings,
    validate_vtk_file Examples.files (s2u "commented.vtk") = Ok (errors, warnings)
    /\ ((exists excerpt, In (comment_msg (Z.of_nat 2 + 1) excerpt) errors)
        <-> ~ preceded_by_lookup_table Examples.commented 2).
Proof.
  apply (comment_error_iff_not_after_lookup_table Examples.files
           (s2u "commented.vtk") Examples.commented 1 2 (ln "  # stray")).
  - reflexivity.
  - apply first_cell_data_of_find. reflexivity.
  - lia.
  - reflexivity.
  - apply startswith_iff. reflexivity.
Defined.

Lemma no_cell_data_no_comment_error_witness :
  (Examples.indented <> [] ->
   exists errors warnings,
     validate_vtk_file Examples.files (s2u "indented.vtk") = Ok (errors, warnings))
  /\ forall errors warnings,
       validate_vtk_file Examples.files (s2u "indented.vtk") = Ok (errors, warnings) ->
       forall n excerpt, ~ In (comment_msg n excerpt) errors.
Proof.
  apply (no_cell_data_no_comment_error Examples.files
           (s2u "indented.vtk") Examples.indented).
  - reflexivity.
  - apply no_section_of_find. reflexivity.
Defined.

Lemma missing_file_reported_witness :
  validate_vtk_file Examples.files (s2u "nowhere.vtk")
  = Ok ([s2u "File not found: " ++ s2u "nowhere.vtk"], []).
Proof.
  apply (missing_file_reported Examples.files (s2u "nowhere.vtk")).
  reflexivity.
Defined.

Lemma header_error_iff_witness :
  exists errors warnings,
    validate_vtk_file Examples.files (s2u "indented.vtk") = Ok (errors, warnings)
    /\ (In (s2u "Missing or invalid VTK version header") errors
        <-> ~ begins_with (ln "DATASET POLYDATA") (s2u "# vtk DataFile Version")).
Proof.
  apply (header_error_iff Examples.files (s2u "indented.vtk")
           (ln "DATASET POLYDATA") [ln "  CELL_DATA 1"; ln "# note"]).
  reflexivity.
Defined.

Lemma comment_error_excerpt_is_stripped_witness :
  exists i raw,
    nth_error Examples.commented i = Some raw
    /\ 3 = Z.of_nat i + 1
    /\ s2u "# stray" = slice_to 50 (strip raw).
Proof.
  apply (comment_error_excerpt_is_stripped Examples.files
           (s2u "commented.vtk") Examples.commented
           [comment_msg 3 (s2u "# stray")]
           (map section_msg required_sections)).
  - reflexivity.
  - reflexivity.
  - left. reflexivity.
Defined.

Lemma indented_cell_data_starts_no_section_witness :
  (Examples.indented <> [] ->
   exists errors warnings,
     validate_vtk_file Examples.files (s2u "indented.vtk") = Ok (errors, warnings))
  /\ forall errors warnings,
       validate_vtk_file Examples.files (s2u "indented.vtk") = Ok (errors, warnings) ->
       forall n excerpt, ~ In (comment_msg n excerpt) errors.
Proof.
  apply (indented_cell_data_starts_no_section Examples.files
           (s2u "indented.vtk") Examples.indented).
  - reflexivity.
  - intros line [<- | [<- | [<- | []]]] Hb.
    + apply startswith_iff in Hb. discriminate Hb.
    + exists 32%N, (tl (ln "  CELL_DATA 1")). split; reflexivity.
    + apply startswith_iff in Hb. discriminate Hb.
Defined.

(* ================================================================== *)
(** ** The required sections                                           *)
(* ================================================================== *)

Section Sections.

Lemma count_occ_map_filter {A : Type} (f : A -> str) (p : A -> bool)
  (l : list A) (k : A) :
  (forall a b, f a = f b -> a = b) -> NoDup l -> In k l ->
  count_occ str_eq_dec (map f (filter p l)) (f k)
  = if p k then 1%nat else 0%nat.
Proof.
  intros Hinj. induction l as [|x l IH]; intros Hnd Hin; [destruct Hin|].
  inversion Hnd as [|? ? Hnotin Hnd']; subst.
  cbn [filter]. destruct Hin as [-> | Hin].
  - assert (count_occ str_eq_dec (map f (filter p l)) (f k) = 0%nat) as H0.
    { apply count_occ_not_In. intros H. apply in_map_iff in H.
      destruct H as [y [Ey Hy]]. apply Hinj in Ey. subst y.
      apply filter_In in Hy. tauto. }
    destruct (p k); [| exact H0].
    cbn [map count_occ]. destruct (str_eq_dec (f k) (f k)); [lia | congruence].
  - assert (x <> k) as Hxk by (intros ->; contradiction).
    destruct (p x); [| now apply IH].
    cbn [map count_occ]. destruct (str_eq_dec (f x) (f k)) as [E | _].
    + apply Hinj in E. contradiction.
    + now apply IH.
Qed.

Lemma required_sections_distinct : NoDup required_sections.
Proof.
  unfold required_sections.
  repeat constructor; cbn; intuition discriminate.
Qed.

(** How often the warning of a required section occurs among the section
    warnings: once when the section is missing from the first 20 lines,
    never when it is there. *)
Lemma section_warning_count (lines : list str) (section : str) :
  In section required_sections ->
  (count_occ str_eq_dec (section_warnings lines) (section_msg section) = 1%nat
   <-> ~ section_present lines section)
  /\ (count_occ str_eq_dec (section_warnings lines) (section_msg section) = 0%nat
      <-> section_present lines section).
Proof.
  intros Hin. unfold section_warnings.
  rewrite (count_occ_map_filter section_msg _ _ section
             section_msg_inj required_sections_distinct Hin).
  rewrite <- section_found_iff.
  destruct (section_found lines section); cbn [negb]; split; split;
    congruence || discriminate || auto.
Qed.

(** X11.  A readable file that is not empty: the warnings are those of the
    required sections missing from the first 20 lines, in the order of
    [required_sections], one each; a section counts as present when its
    keyword occurs anywhere in one of these lines. *)
Lemma section_warnings_of_nonempty_file
  (fs : filesystem) (path : str) (first : str) (rest : list str) :
  fs path = Text (first :: rest) ->
  exists errors warnings,
    validate_vtk_file fs path = Ok (errors, warnings)
    /\ warnings
       = map section_msg
           (filter (fun s => negb (section_found (first :: rest) s))
                   required_sections)
    /\ forall section, In section required_sections ->
         (count_occ str_eq_dec warnings (section_msg section) = 1%nat
          <-> ~ section_present (first :: rest) section)
         /\ (count_occ str_eq_dec warnings (section_msg section) = 0%nat
             <-> section_present (first :: rest) section).
Proof.
  intros Hfs. unfold validate_vtk_file. rewrite Hfs.
  destruct (validate_lines_shape first rest) as [comments [Hv _]].
  eexists _, (section_warnings (first :: rest)).
  split; [exact Hv | split; [reflexivity |]].
  intros section Hin. now apply section_warning_count.
Qed.

(** C4.  In the empty file none of the five keywords occurs, yet the
    function returns no warning for any of them: it raises at the header
    check, before the section loops. *)
Theorem empty_file_gets_no_section_warning (path : str) :
  validate_vtk_file (fun _ => Text []) path = Raise IndexError
  /\ Forall (fun section => ~ section_present [] section) required_sections.
Proof.
  split; [reflexivity|].
  apply Forall_forall. intros section _ [line [[] _]].
Qed.

End Sections.

(* ================================================================== *)
(** ** [main]: the report and the exit status                          *)
(* ================================================================== *)

Section Driver.

Lemma error_total_nonneg (results : list (list str * list str)) :
  0 <= error_total results.
Proof.
  induction results as [|r results IH]; simpl; lia.
Qed.

Lemma error_total_errors_only (r1 r2 : list (list str * list str)) :
  map fst r1 = map fst r2 -> error_total r1 = error_total r2.
Proof.
  revert r2. induction r1 as [|a r1 IH]; intros [|b r2] E;
    try discriminate; [reflexivity|].
  simpl in *. injection E as Ea E. now rewrite Ea, (IH r2 E).
Qed.

Lemma report_file_total (filepath : str) (errors warnings : list str) (total : Z) :
  snd (report_file filepath errors warnings total)
  = total + Z.of_nat (length errors).
Proof.
  unfold report_file. destruct errors; destruct warnings; simpl; lia.
Qed.

(** When every call of [validate_vtk_file] returns, the loop ends with the
    sum of the error counts in [total_errors], and only appends to what was
    printed. *)
Lemma main_loop_returns (fs : filesystem) (paths : list str) (results : list (list str * list str)) :
  Forall2 (fun path r => validate_vtk_file fs path = Ok r) paths results ->
  forall out total,
    exists printed,
      main_loop fs paths out total
      = (out ++ printed, Ok (total + error_total results)).
Proof.
  induction 1 as [|path [errors warnings] paths results Hv _ IH];
    intros out total.
  - exists []. simpl. now rewrite List.app_nil_r, Z.add_0_r.
  - cbn [main_loop]. rewrite Hv.
    pose proof (report_file_total path errors warnings total) as Ht.
    destruct (report_file path errors warnings total) as [printed total'].
    cbn [snd] in Ht. subst total'.
    destruct (IH (out ++ printed) (total + Z.of_nat (length errors)))
      as [more Hmore].
    exists (printed ++ more). rewrite Hmore. cbn [error_total fold_right fst].
    fold (error_total results). rewrite <- List.app_assoc. f_equal. f_equal. lia.
Qed.

(** An exception of [validate_vtk_file] leaves [main]: nothing of the
    summary is printed and the process ends with status 1. *)
Lemma main_loop_raises (fs : filesystem) (paths : list str) :
  forall out total printed e,
    main_loop fs paths out total = (printed, Raise e) ->
    exists path, In path paths /\ validate_vtk_file fs path = Raise e.
Proof.
  induction paths as [|path paths IH]; intros out total printed e H.
  - discriminate H.
  - cbn [main_loop] in H.
    destruct (validate_vtk_file fs path) as [[errors warnings]|e'] eqn:Hv.
    + destruct (report_file path errors warnings total) as [p t].
      apply IH in H. destruct H as [q [Hq Hr]]. exists q. split; [now right | exact Hr].
    + injection H as _ <-. exists path. split; [now left | exact Hv].
Qed.

Lemma run_returns (fs : filesystem) (prog : str) (paths : list str)
  (results : list (list str * list str)) :
  paths <> [] ->
  Forall2 (fun path r => validate_vtk_file fs path = Ok r) paths results ->
  exists report,
    run fs (prog :: paths)
    = (report ++ summary (length paths) (error_total results),
       if error_total results =? 0 then 0 else 1).
Proof.
  intros Hne Hall. unfold run, main.
  destruct paths as [|p paths]; [congruence|].
  replace (Z.of_nat (length (prog :: p :: paths)) <? 2) with false
    by (symmetry; apply Z.ltb_ge; cbn [length]; lia).
  cbn [tl].
  destruct (main_loop_returns fs (p :: paths) results Hall [] 0) as [printed Hm].
  rewrite Hm. cbn [app Z.add exit_status]. exists printed. f_equal.
  pose proof (error_total_nonneg results).
  destruct (Z.eqb_spec (error_total results) 0) as [E | E].
  - rewrite E. reflexivity.
  - replace (0 <? error_total results) with true
      by (symmetry; apply Z.ltb_lt; lia).
    reflexivity.
Qed.

(** C8, as the code has it.  A run over N >= 1 paths in which every call of
    [validate_vtk_file] returns ends with the summary: "Total files
    validated: N", "Total errors: " and the sum of the error counts; its
    exit status is 0 when that sum is 0 and 1 otherwise; and the status is
    the same for any other run over the same paths that returns the same
    errors, whatever its warnings. *)
Theorem run_summary_and_status (fs : filesystem) (prog : str)
  (paths : list str)
  (results : list (list str * list str)) :
  paths <> [] ->
  Forall2 (fun path r => validate_vtk_file fs path = Ok r) paths results ->
  exists report status,
    run fs (prog :: paths)
    = (report ++
       [ [LF] ++ times 61%N 50;
         s2u "Total files validated: " ++ format_int (Z.of_nat (length paths));
         s2u "Total errors: " ++ format_int (error_total results);
         s2u "Overall result: " ++
           (if error_total results =? 0 then s2u "PASSED" else s2u "FAILED") ],
       status)
    /\ (status = 0 <-> error_total results = 0)
    /\ (status = 1 <-> error_total results <> 0)
    /\ forall fs' results',
         Forall2 (fun path r => validate_vtk_file fs' path = Ok r) paths results' ->
         map fst results' = map fst results ->
         snd (run fs' (prog :: paths)) = status.
Proof.
  intros Hne Hall.
  destruct (run_returns fs prog paths results Hne Hall) as [report Hrun].
  exists report, (if error_total results =? 0 then 0 else 1).
  pose proof (error_total_nonneg results) as Hpos.
  split; [| split; [| split]].
  - rewrite Hrun. f_equal. f_equal. unfold summary.
    destruct (Z.eqb_spec (error_total results) 0) as [E | E].
    + rewrite E. reflexivity.
    + replace (0 <? error_total results) with true
        by (symmetry; apply Z.ltb_lt; lia).
      reflexivity.
  - destruct (Z.eqb_spec (error_total results) 0); split; intros; lia.
  - destruct (Z.eqb_spec (error_total results) 0); split; intros; lia.
  - intros fs' results' Hall' Hsame.
    rewrite <- (error_total_errors_only _ _ Hsame).
    destruct (run_returns fs' prog paths results' Hne Hall') as [report' Hrun'].
    now rewrite Hrun'.
Qed.

End Driver.

Section Runs.

Lemma examples_are_files :
  readlines_shape Examples.commented = true /\ readlines_shape Examples.indented = true
  /\ readlines_shape Examples.complete = true /\ readlines_shape [] = true.
Proof. repeat split. Qed.

(** The sixth scenario of the specification in small: a valid file and a
    missing one. *)
Example run_two_files :
  run Examples.files [s2u "validate_vtk.py"; s2u "complete.vtk"; s2u "nowhere.vtk"]
  = ([ [LF] ++ s2u "Validating: complete.vtk";
       s2u "------------------------";
       no_errors_line;
       s2u "Status: VALID";
       [LF] ++ s2u "Validating: nowhere.vtk";
       s2u "-----------------------";
       errors_heading 1;
       bullet_line (s2u "File not found: nowhere.vtk");
       s2u "Status: INVALID";
       [LF] ++ s2u "==================================================";
       s2u "Total files validated: 2";
       s2u "Total errors: 1";
       s2u "Overall result: FAILED" ],
     1).
Proof. reflexivity. Qed.

(** No file argument: the usage line and status 1. *)
Example run_without_arguments :
  run Examples.files [s2u "validate_vtk.py"] = ([usage_line], 1).
Proof. reflexivity. Qed.

End Runs.

(** C8 as stated fails: a file that cannot be read makes
    [validate_vtk_file] raise; no error list is returned for it, the
    process ends with status 1 and the summary is never printed. *)
Lemma run_on_unreadable_file_has_no_summary :
  let argv := [s2u "validate_vtk.py"; s2u "locked.vtk"] in
  validate_vtk_file Examples.files (s2u "locked.vtk") = Raise OSError
  /\ run Examples.files argv
     = ([ [LF] ++ s2u "Validating: locked.vtk"; s2u "----------------------" ], 1)
  /\ ~ In (s2u "Total files validated: 1") (fst (run Examples.files argv)).
Proof.
  split; [reflexivity | split; [reflexivity |]].
  intros [H | [H | []]]; discriminate H.
Qed.

Lemma run_summary_and_status_witness :
  exists report status,
    run Examples.files RunExamples.argv
    = (report ++
       [ [LF] ++ times 61%N 50;
         s2u "Total files validated: " ++ format_int (Z.of_nat 3);
         s2u "Total errors: " ++ format_int (error_total RunExamples.results);
         s2u "Overall result: " ++
           (if error_total RunExamples.results =? 0
            then s2u "PASSED" else s2u "FAILED") ],
       status)
    /\ (status = 0 <-> error_total RunExamples.results = 0)
    /\ (status = 1 <-> error_total RunExamples.results <> 0)
    /\ forall fs' results',
         Forall2 (fun path r => validate_vtk_file fs' path = Ok r)
                 (tl RunExamples.argv) results' ->
         map fst results' = map fst RunExamples.results ->
         snd (run fs' RunExamples.argv) = status.
Proof.
  apply (run_summary_and_status Examples.files (s2u "validate_vtk.py")
           (tl RunExamples.argv) RunExamples.results).
  - discriminate.
  - repeat constructor.
Defined.

(* ================================================================== *)
(** ** Further properties of [validate_vtk_file]                       *)
(* ================================================================== *)

Section Findings.

Variable fs : filesystem.

Ltac read_file Hfs := unfold validate_vtk_file; rewrite Hfs.
Ltac read_file_in Hfs Hv := unfold validate_vtk_file in Hv; rewrite Hfs in Hv.

Lemma flat_map_nil_iff {A B : Type} (f : A -> list B) (l : list A) :
  flat_map f l = [] <-> forall x, In x l -> f x = [].
Proof.
  induction l as [|a l IH]; simpl.
  - split; [intros _ x [] | reflexivity].
  - split.
    + intros H. apply app_eq_nil in H. destruct H as [Ha Hl].
      intros x [<- | Hx]; [exact Ha | now apply IH].
    + intros H. rewrite (H a (or_introl eq_refl)).
      apply IH. intros x Hx. apply H. now right.
Qed.

Lemma flat_map_if {A B : Type} (c : A -> bool) (g : A -> B) (l : list A) :
  flat_map (fun x => if c x then [g x] else []) l = map g (filter c l).
Proof.
  induction l as [|a l IH]; simpl; [reflexivity|].
  rewrite IH. now destruct (c a).
Qed.

Lemma filter_seq_sorted (p : nat -> bool) (n : nat) :
  forall a, StronglySorted lt (filter p (seq a n)).
Proof.
  induction n as [|n IH]; intros a; simpl; [constructor|].
  destruct (p a); [| apply IH].
  constructor; [apply IH|].
  apply Forall_forall. intros x Hx.
  apply filter_In in Hx. destruct Hx as [Hx _]. apply in_seq in Hx. lia.
Qed.

Lemma comment_error_flagged (lines : list str) (i : nat) :
  comment_error lines i
  = if flagged lines i
    then [comment_msg (Z.of_nat i + 1) (slice_to 50 (strip (nth i lines [])))]
    else [].
Proof.
  unfold comment_error, flagged.
  destruct (nth_error lines i) as [raw|] eqn:Hraw; [| reflexivity].
  now rewrite (nth_error_nth _ _ _ Hraw).
Qed.

Lemma flagged_iff (lines : list str) (i : nat) :
  flagged lines i = true <->
  exists raw, nth_error lines i = Some raw
              /\ begins_with (strip raw) HASH
              /\ ~ preceded_by_lookup_table lines i.
Proof.
  pose proof (in_comment_error lines i
                (comment_msg (Z.of_nat i + 1) (slice_to 50 (strip (nth i lines [])))))
    as H.
  rewrite comment_error_flagged in H. destruct (flagged lines i).
  - split; [intros _ | reflexivity].
    destruct (proj1 H (or_introl eq_refl)) as [raw [H1 [H2 [H3 _]]]].
    now exists raw.
  - split; [discriminate|]. intros [raw [H1 [H2 H3]]].
    exfalso. apply H. exists raw. repeat split; auto.
    now rewrite (nth_error_nth _ _ _ H1).
Qed.

(** The CELL_DATA line itself is never flagged. *)
Lemma section_start_not_flagged (lines : list str) (i0 : nat) :
  first_cell_data lines i0 -> flagged lines i0 = false.
Proof.
  intros [[line [Hline Hb]] _]. unfold flagged. rewrite Hline.
  destruct (cell_data_line_stripped line Hb) as [_ [Hh _]]. now rewrite Hh.
Qed.

(** Where a comment error comes from. *)
Lemma comment_error_origin (lines errors warnings : list str) (n : Z)
  (excerpt : str) :
  validate_lines lines = Ok (errors, warnings) ->
  In (comment_msg n excerpt) errors ->
  exists i0 i raw,
    first_cell_data lines i0 /\ (i0 < i)%nat
    /\ nth_error lines i = Some raw
    /\ begins_with (strip raw) HASH
    /\ ~ preceded_by_lookup_table lines i
    /\ n = Z.of_nat i + 1
    /\ excerpt = slice_to 50 (strip raw).
Proof.
  intros Hv Hin.
  destruct (errors_of_validate_lines _ _ _ Hv _ Hin)
    as [E | [i0 [i [Hi0 [Hle Hc]]]]].
  - now apply comment_msg_not_header in E.
  - apply in_comment_error in Hc.
    destruct Hc as [raw [Hraw [Hh [Hnot E]]]].
    apply comment_msg_line in E. destruct E as [-> ->].
    assert (i <> i0) as Hne.
    { intros ->. pose proof (section_start_not_flagged _ _ Hi0) as Hf.
      assert (flagged lines i0 = true) as Ht
          by (apply flagged_iff; now exists raw).
      congruence. }
    exists i0, i, raw.
    split; [exact Hi0 | split; [lia |]]. auto.
Qed.

(** With a section, the errors are the header error and then the messages
    of the flagged lines past the section start. *)
Lemma errors_with_section (first : str) (rest : list str) (i0 : nat) :
  first_cell_data (first :: rest) i0 ->
  validate_lines (first :: rest)
  = Ok (header_errors first
          ++ map (fun i => comment_msg (Z.of_nat i + 1)
                             (slice_to 50 (strip (nth i (first :: rest) []))))
                 (filter (flagged (first :: rest))
                         (seq i0 (length (first :: rest) - i0))),
        section_warnings (first :: rest)).
Proof.
  intros Hi0. rewrite (validate_lines_with_section _ _ _ Hi0).
  rewrite <- flat_map_if. do 3 f_equal.
  rewrite !flat_map_concat_map. f_equal. apply map_ext.
  intros i. apply comment_error_flagged.
Qed.

Lemma filter_none {A : Type} (p : A -> bool) (l : list A) :
  (forall x, In x l -> p x = false) -> filter p l = [].
Proof.
  induction l as [|a l IH]; intros H; simpl; [reflexivity|].
  rewrite (H a (or_introl eq_refl)). apply IH. intros x Hx. apply H. now right.
Qed.

Lemma first_cell_data_app (lines more : list str) (i0 : nat) :
  first_cell_data lines i0 -> first_cell_data (lines ++ more) i0.
Proof.
  intros [[line [Hline Hb]] Hmin].
  assert (i0 < length lines)%nat as Hlt by (apply nth_error_Some; congruence).
  split.
  - exists line. split; [| exact Hb]. now rewrite nth_error_app1.
  - intros j x Hj Hx. rewrite nth_error_app1 in Hx by lia. now apply (Hmin j).
Qed.

Lemma comment_error_app (lines more : list str) (i : nat) :
  (i < length lines)%nat ->
  comment_error (lines ++ more) i = comment_error lines i.
Proof.
  intros Hi. unfold comment_error, lookback.
  rewrite nth_error_app1 by exact Hi.
  destruct i as [|j]; [reflexivity|].
  now rewrite (nth_error_app1 lines more (n := j)) by lia.
Qed.

(** X5.  A readable file that is not empty gets no error at all exactly
    when its first line begins with the version header and, if it has a
    CELL_DATA line, every line from the first one on that begins with "#"
    once stripped comes right after a line that begins with LOOKUP_TABLE
    once stripped. *)
Theorem no_error_iff (path : str) (first : str) (rest : list str) :
  fs path = Text (first :: rest) ->
  (exists warnings, validate_vtk_file fs path = Ok ([], warnings))
  <-> begins_with first HEADER_PREFIX
      /\ forall i0 i raw,
           first_cell_data (first :: rest) i0 -> (i0 <= i)%nat ->
           nth_error (first :: rest) i = Some raw ->
           begins_with (strip raw) HASH ->
           preceded_by_lookup_table (first :: rest) i.
Proof.
  intros Hfs. read_file Hfs.
  assert (header_errors first = [] <-> begins_with first HEADER_PREFIX) as Hh.
  { unfold header_errors. rewrite <- startswith_iff.
    destruct (startswith first HEADER_PREFIX); split; congruence. }
  destruct (first_cell_data_cases (first :: rest)) as [Hnone | [i0 Hi0]].
  - rewrite validate_lines_without_section by assumption. split.
    + intros [w E]. injection E as E _. split; [now apply Hh|].
      intros j i raw [[line [Hline Hb]] _]. exfalso.
      apply (Hnone line); [now apply nth_error_In with j | exact Hb].
    + intros [H _]. apply Hh in H. rewrite H. eauto.
  - rewrite (errors_with_section _ _ _ Hi0). split.
    + intros [w E].
      match type of E with
      | Ok (?x, _) = _ => assert (x = []) as E' by congruence
      end.
      apply app_eq_nil in E'. destruct E' as [E1 E2]. apply map_eq_nil in E2.
      split; [now apply Hh|].
      intros j i raw Hj Hle Hraw Hhash.
      rewrite (first_cell_data_unique _ _ _ Hj Hi0) in Hle.
      destruct (lookback (first :: rest) i) eqn:Hl; [now apply lookback_iff|].
      exfalso.
      assert (In i (filter (flagged (first :: rest))
                           (seq i0 (length (first :: rest) - i0)))) as Hin.
      { apply filter_In. split.
        - apply in_seq.
          assert (i < length (first :: rest))%nat
            by (apply nth_error_Some; congruence).
          lia.
        - apply flagged_iff. exists raw. split; [exact Hraw | split; [exact Hhash|]].
          intros Hp. apply lookback_iff in Hp. congruence. }
      rewrite E2 in Hin. destruct Hin.
    + intros [H Hall]. apply Hh in H. rewrite H.
      rewrite filter_none; [cbn [map app]; eauto|].
      intros i Hi. apply in_seq in Hi.
      destruct (flagged (first :: rest) i) eqn:Hf; [| reflexivity].
      apply flagged_iff in Hf. destruct Hf as [raw [Hraw [Hhash Hnot]]].
      elim Hnot. apply (Hall i0 i raw); auto. lia.
Qed.

(** X6.  A CELL_DATA comment error names a line of the file that lies
    strictly after the first CELL_DATA line: with [i0] the 0-based index of
    that line, the printed number [n] satisfies [i0 + 1 < n <= len(lines)].
    Lines before the section, the header line among them, and the
    CELL_DATA line itself are never reported. *)
Theorem comment_error_line_bounds
  (path : str) (lines errors warnings : list str) (n : Z) (excerpt : str) :
  fs path = Text lines ->
  validate_vtk_file fs path = Ok (errors, warnings) ->
  In (comment_msg n excerpt) errors ->
  exists i0, first_cell_data lines i0
             /\ Z.of_nat i0 + 1 < n <= Z.of_nat (length lines).
Proof.
  intros Hfs Hv Hin. read_file_in Hfs Hv.
  destruct (comment_error_origin _ _ _ _ _ Hv Hin)
    as [i0 [i [raw [Hi0 [Hlt [Hraw [_ [_ [-> _]]]]]]]]].
  exists i0. split; [exact Hi0|].
  assert (i < length lines)%nat by (apply nth_error_Some; congruence).
  lia.
Qed.

(** X7.  The excerpt of a CELL_DATA comment error begins with "#" and has
    at most 50 characters. *)
Theorem comment_error_excerpt_shape
  (path : str) (lines errors warnings : list str) (n : Z) (excerpt : str) :
  fs path = Text lines ->
  validate_vtk_file fs path = Ok (errors, warnings) ->
  In (comment_msg n excerpt) errors ->
  begins_with excerpt HASH /\ (length excerpt <= 50)%nat.
Proof.
  intros Hfs Hv Hin. read_file_in Hfs Hv.
  destruct (comment_error_origin _ _ _ _ _ Hv Hin)
    as [i0 [i [raw [_ [_ [_ [[t Ht] [_ [_ ->]]]]]]]]].
  unfold slice_to. split; [| apply firstn_le_length].
  rewrite Ht. exists (firstn 49 t). reflexivity.
Qed.

(** X8.  The errors of a readable file that is not empty are the header
    error, if there is one, and then the comment errors in strictly
    ascending line order: no line is reported twice and the header error
    never comes after a comment error. *)
Theorem errors_in_line_order (path : str) (first : str) (rest : list str) :
  fs path = Text (first :: rest) ->
  exists numbers warnings,
    validate_vtk_file fs path
    = Ok (header_errors first
            ++ map (fun i => comment_msg (Z.of_nat i + 1)
                               (slice_to 50 (strip (nth i (first :: rest) []))))
                   numbers,
          warnings)
    /\ StronglySorted lt numbers.
Proof.
  intros Hfs. read_file Hfs.
  destruct (first_cell_data_cases (first :: rest)) as [Hnone | [i0 Hi0]].
  - exists [], (section_warnings (first :: rest)).
    rewrite validate_lines_without_section by assumption.
    cbn [map]. rewrite List.app_nil_r. split; [reflexivity | constructor].
  - eexists _, _. split; [exact (errors_with_section _ _ _ Hi0)|].
    apply filter_seq_sorted.
Qed.

(** X9.  The LOOKUP_TABLE exemption covers one line only: of two
    consecutive lines that begin with "#" once stripped, the second, when
    it lies in the section, is always reported. *)
Theorem second_comment_line_is_reported
  (path : str) (lines : list str) (i0 i : nat) (a b : str) :
  fs path = Text lines ->
  first_cell_data lines i0 ->
  (i0 <= S i)%nat ->
  nth_error lines i = Some a ->
  nth_error lines (S i) = Some b ->
  begins_with (strip a) HASH ->
  begins_with (strip b) HASH ->
  exists errors warnings,
    validate_vtk_file fs path = Ok (errors, warnings)
    /\ In (comment_msg (Z.of_nat (S i) + 1) (slice_to 50 (strip b))) errors.
Proof.
  intros Hfs Hi0 Hle Ha Hb Hha Hhb. read_file Hfs.
  destruct lines as [|first rest]; [destruct i; discriminate|].
  rewrite (validate_lines_with_section _ _ _ Hi0).
  eexists _, _. split; [reflexivity|].
  apply in_app_iff. right. apply in_flat_map. exists (S i). split.
  - apply in_seq.
    assert (S i < length (first :: rest))%nat
      by (apply nth_error_Some; congruence).
    lia.
  - apply in_comment_error. exists b.
    split; [exact Hb | split; [exact Hhb | split; [| reflexivity]]].
    intros [j [prev [E [Hprev [t Ht]]]]]. injection E as <-.
    assert (prev = a) as -> by congruence.
    destruct Hha as [u Hu]. rewrite Hu in Ht. discriminate Ht.
Qed.

(** X10.  Lines added at the end of a file take no error away: the errors
    of the longer file begin with the errors of the shorter one, in the
    same order. *)
Theorem errors_kept_when_lines_are_appended
  (path1 path2 : str) (lines more : list str) :
  fs path1 = Text lines ->
  fs path2 = Text (lines ++ more) ->
  lines <> [] ->
  exists errors warnings later warnings',
    validate_vtk_file fs path1 = Ok (errors, warnings)
    /\ validate_vtk_file fs path2 = Ok (errors ++ later, warnings').
Proof.
  intros H1 H2 Hne. unfold validate_vtk_file. rewrite H1, H2.
  destruct lines as [|first rest]; [congruence|]. cbn [app].
  destruct (first_cell_data_cases (first :: rest)) as [Hnone | [i0 Hi0]].
  - rewrite validate_lines_without_section by assumption.
    destruct (validate_lines_shape first (rest ++ more)) as [comments [Hv _]].
    rewrite Hv. eexists _, _, _, _. split; reflexivity.
  - rewrite (validate_lines_with_section _ _ _ Hi0).
    pose proof (first_cell_data_app _ more _ Hi0) as Hi0'.
    cbn [app] in Hi0'. rewrite (validate_lines_with_section _ _ _ Hi0').
    assert (i0 < length (first :: rest))%nat as Hlt.
    { destruct Hi0 as [[line [Hline _]] _]. apply nth_error_Some. congruence. }
    exists (header_errors first
            ++ flat_map (comment_error (first :: rest))
                        (seq i0 (length (first :: rest) - i0))).
    exists (section_warnings (first :: rest)).
    exists (flat_map (comment_error (first :: rest ++ more))
                     (seq (length (first :: rest)) (length more))).
    exists (section_warnings (first :: rest ++ more)).
    split; [reflexivity|]. do 2 f_equal.
    rewrite <- List.app_assoc. f_equal.
    replace (length (first :: rest ++ more) - i0)%nat
      with ((length (first :: rest) - i0) + length more)%nat
      by (cbn [length]; rewrite length_app; cbn [length] in Hlt; lia).
    rewrite seq_app, flat_map_app.
    replace (i0 + (length (first :: rest) - i0))%nat
      with (length (first :: rest)) by lia.
    f_equal. rewrite !flat_map_concat_map. f_equal.
    apply map_ext_in. intros i Hi. apply in_seq in Hi.
    apply (comment_error_app (first :: rest) more). lia.
Qed.

(** X12.  On a readable file the function raises exactly when the file is
    empty, and then it raises IndexError: no index of the comment loop
    ever leaves a file that has a line. *)
Theorem readable_file_raises_iff_empty
  (path : str) (lines : list str) (e : exn) :
  fs path = Text lines ->
  validate_vtk_file fs path = Raise e <-> lines = [] /\ e = IndexError.
Proof.
  intros Hfs. split.
  - now apply readable_file_raises_only_if_empty.
  - intros [-> ->]. now read_file Hfs.
Qed.

(** X13.  The warnings look at the first 20 lines and at nothing else: two
    readable files that are not empty and agree on their first 20 lines get
    the same warnings, whatever their errors. *)
Theorem warnings_depend_on_first_20_lines
  (path1 path2 : str) (lines1 lines2 : list str) :
  fs path1 = Text lines1 ->
  fs path2 = Text lines2 ->
  lines1 <> [] -> lines2 <> [] ->
  firstn 20 lines1 = firstn 20 lines2 ->
  exists errors1 errors2 warnings,
    validate_vtk_file fs path1 = Ok (errors1, warnings)
    /\ validate_vtk_file fs path2 = Ok (errors2, warnings).
Proof.
  intros H1 H2 Hne1 Hne2 Hsame. unfold validate_vtk_file. rewrite H1, H2.
  destruct lines1 as [|f1 r1]; [congruence|].
  destruct lines2 as [|f2 r2]; [congruence|].
  destruct (validate_lines_shape f1 r1) as [c1 [Hv1 _]].
  destruct (validate_lines_shape f2 r2) as [c2 [Hv2 _]].
  rewrite Hv1, Hv2. eexists _, _, _. split; [reflexivity|].
  do 2 f_equal. unfold section_warnings, section_found. now rewrite Hsame.
Qed.

End Findings.

(* ================================================================== *)
(** ** Further properties of [main]                                    *)
(* ================================================================== *)

Section RunProperties.

Variable fs : filesystem.

Lemma report_file_printed (filepath : str) (errors warnings : list str)
  (total : Z) :
  fst (report_file filepath errors warnings total)
  = file_block filepath (errors, warnings).
Proof.
  unfold report_file, file_block, file_title. cbn [fst snd].
  destruct errors; destruct warnings; cbn [fst app];
    rewrite <- ?List.app_assoc; reflexivity.
Qed.

Lemma run_blocks_cons (path : str) (r : list str * list str)
  (paths : list str) (results : list (list str * list str)) :
  run_blocks (path :: paths) (r :: results)
  = file_block path r ++ run_blocks paths results.
Proof. reflexivity. Qed.

(** The loop over files that all validate: their blocks are printed in
    order and their error counts added, and the loop goes on with the
    rest. *)
Lemma main_loop_prefix (before : list str)
  (results : list (list str * list str)) (rest : list str) :
  Forall2 (fun path r => validate_vtk_file fs path = Ok r) before results ->
  forall out total,
    main_loop fs (before ++ rest) out total
    = main_loop fs rest (out ++ run_blocks before results)
                (total + error_total results).
Proof.
  induction 1 as [|path [errors warnings] before results Hv _ IH];
    intros out total.
  - cbn [app run_blocks combine flat_map error_total fold_right].
    now rewrite List.app_nil_r, Z.add_0_r.
  - cbn [app main_loop]. rewrite Hv.
    pose proof (report_file_total path errors warnings total) as Ht.
    pose proof (report_file_printed path errors warnings total) as Hp.
    destruct (report_file path errors warnings total) as [printed total'].
    cbn [fst snd] in Ht, Hp. subst printed total'.
    rewrite IH, run_blocks_cons, <- List.app_assoc.
    cbn [error_total fold_right fst]. fold (error_total results).
    f_equal. lia.
Qed.

(** The paths split into those that validate and, if there is one, the
    first on which [validate_vtk_file] raises. *)
Lemma validation_prefix (paths : list str) :
  (exists results,
      Forall2 (fun path r => validate_vtk_file fs path = Ok r) paths results)
  \/ (exists before path after results e,
         paths = before ++ path :: after
         /\ Forall2 (fun p r => validate_vtk_file fs p = Ok r) before results
         /\ validate_vtk_file fs path = Raise e).
Proof.
  induction paths as [|p paths IH].
  - left. exists []. constructor.
  - destruct (validate_vtk_file fs p) as [r|e] eqn:Hp.
    + destruct IH as [[results H] | [before [q [after [results [e [E [H Hq]]]]]]]].
      * left. exists (r :: results). now constructor.
      * right. exists (p :: before), q, after, (r :: results), e.
        split; [now rewrite E | split; [now constructor | exact Hq]].
    + right. exists [], p, paths, [], e.
      split; [reflexivity | split; [constructor | exact Hp]].
Qed.

Lemma main_with_paths (prog : str) (paths : list str) :
  paths <> [] ->
  main fs (prog :: paths)
  = match main_loop fs paths [] 0 with
    | (out, Raise e) => (out, Raise e)
    | (out, Ok total) =>
        (out ++ summary (length paths) total,
         Ok (if 0 <? total then 1 else 0))
    end.
Proof.
  intros Hne. unfold main.
  destruct paths as [|p paths]; [congruence|].
  replace (Z.of_nat (length (prog :: p :: paths)) <? 2) with false
    by (symmetry; apply Z.ltb_ge; cbn [length]; lia).
  reflexivity.
Qed.

Lemma main_completed (prog : str) (paths : list str)
  (results : list (list str * list str)) :
  paths <> [] ->
  Forall2 (fun path r => validate_vtk_file fs path = Ok r) paths results ->
  main fs (prog :: paths)
  = (run_blocks paths results ++ summary (length paths) (error_total results),
     Ok (if error_total results =? 0 then 0 else 1)).
Proof.
  intros Hne Hall. rewrite (main_with_paths prog paths Hne).
  rewrite <- (List.app_nil_r paths) at 1.
  rewrite (main_loop_prefix paths results [] Hall). cbn [main_loop app Z.add].
  pose proof (error_total_nonneg results).
  destruct (Z.eqb_spec (error_total results) 0) as [E | E].
  - now rewrite E.
  - replace (0 <? error_total results) with true
      by (symmetry; apply Z.ltb_lt; lia).
    reflexivity.
Qed.

Lemma main_aborted (prog : str) (before : list str) (path : str)
  (after : list str) (results : list (list str * list str)) (e : exn) :
  Forall2 (fun p r => validate_vtk_file fs p = Ok r) before results ->
  validate_vtk_file fs path = Raise e ->
  main fs (prog :: before ++ path :: after)
  = (run_blocks before results ++ file_title path, Raise e).
Proof.
  intros Hall Hp.
  rewrite main_with_paths by (destruct before; discriminate).
  rewrite (main_loop_prefix before results (path :: after) Hall).
  cbn [main_loop app Z.add]. now rewrite Hp.
Qed.

(** What [validate_vtk_file] raises ends the interpreter with status 1. *)
Lemma validate_raises_status (path : str) (e : exn) :
  open_errors fs ->
  validate_vtk_file fs path = Raise e -> exit_status (Raise e) = 1.
Proof.
  intros Hopen Hv. unfold validate_vtk_file in Hv.
  destruct (fs path) as [|e'|lines] eqn:Hfs.
  - discriminate Hv.
  - injection Hv as ->. now destruct (Hopen path e Hfs) as [-> | ->].
  - assert (validate_vtk_file fs path = Raise e) as Hv'
        by (unfold validate_vtk_file; now rewrite Hfs).
    destruct (readable_file_raises_only_if_empty fs path lines e Hfs Hv')
      as [_ ->].
    reflexivity.
Qed.

Lemma error_total_zero_iff (results : list (list str * list str)) :
  error_total results = 0 <-> Forall (fun r => fst r = []) results.
Proof.
  induction results as [|r results IH]; cbn [error_total fold_right].
  - split; [constructor | reflexivity].
  - fold (error_total results). pose proof (error_total_nonneg results).
    split.
    + intros H0. constructor.
      * destruct (fst r); [reflexivity | cbn [length] in H0; lia].
      * apply IH. lia.
    + intros Hall. inversion Hall as [|? ? Hr Hrest]; subst.
      rewrite Hr. apply IH in Hrest. cbn [length]. lia.
Qed.

Lemma no_errors_everywhere (paths : list str)
  (results : list (list str * list str)) :
  Forall2 (fun path r => validate_vtk_file fs path = Ok r) paths results ->
  Forall (fun r => fst r = []) results
  <-> Forall (fun path => exists warnings,
                  validate_vtk_file fs path = Ok ([], warnings)) paths.
Proof.
  induction 1 as [|path [errors warnings] paths results Hv _ IH].
  - split; constructor.
  - split; intros Hall; inversion Hall as [|? ? Hh Ht]; subst;
      constructor; try (now apply IH).
    + cbn [fst] in Hh. subst errors. now exists warnings.
    + destruct Hh as [w Hw]. cbn [fst]. congruence.
Qed.

(** X1.  When [open] raises nothing but OSError and UnicodeDecodeError, the
    process ends with status 0 exactly when at least one path was given and
    [validate_vtk_file] returns an empty error list for every path; a path
    that is missing, a file with an error, an empty file and a file that
    cannot be read each make the status differ from 0. *)
Theorem run_status_zero_iff (argv : list str) :
  open_errors fs ->
  snd (run fs argv) = 0
  <-> tl argv <> []
      /\ Forall (fun path => exists warnings,
                    validate_vtk_file fs path = Ok ([], warnings)) (tl argv).
Proof.
  intros Hopen. unfold run.
  destruct argv as [|prog [|p paths]]; cbn [tl].
  - split; [discriminate | intros [H _]; congruence].
  - split; [discriminate | intros [H _]; congruence].
  - destruct (validation_prefix (p :: paths))
      as [[results Hall] | [before [q [after [results [e [E [Hall Hq]]]]]]]].
    + rewrite (main_completed prog (p :: paths) results) by (discriminate || exact Hall).
      cbn [snd exit_status].
      rewrite <- (no_errors_everywhere _ _ Hall), <- error_total_zero_iff.
      destruct (Z.eqb_spec (error_total results) 0) as [H0 | H0]; split.
      * intros _. split; [discriminate | exact H0].
      * reflexivity.
      * discriminate.
      * intros [_ H]. contradiction.
    + rewrite E, (main_aborted prog before q after results e Hall Hq).
      cbn [snd]. rewrite (validate_raises_status q e Hopen Hq).
      split; [discriminate|]. intros [_ Hok]. exfalso.
      apply Forall_app in Hok. destruct Hok as [_ Hok].
      inversion Hok as [|? ? [w Hw] _]; subst. congruence.
Qed.

(** X2.  When [open] raises nothing but OSError and UnicodeDecodeError, the
    exit status of the process is 0 or 1, whatever the arguments and the
    files. *)
Theorem run_status_is_0_or_1 (argv : list str) :
  open_errors fs ->
  snd (run fs argv) = 0 \/ snd (run fs argv) = 1.
Proof.
  intros Hopen. unfold run.
  destruct argv as [|prog [|p paths]].
  - now right.
  - now right.
  - destruct (validation_prefix (p :: paths))
      as [[results Hall] | [before [q [after [results [e [E [Hall Hq]]]]]]]].
    + rewrite (main_completed prog (p :: paths) results) by (discriminate || exact Hall).
      cbn [snd exit_status]. destruct (error_total results =? 0); auto.
    + rewrite E, (main_aborted prog before q after results e Hall Hq).
      cbn [snd]. right. exact (validate_raises_status q e Hopen Hq).
Qed.

(** X3.  A run stops at the first file on which [validate_vtk_file]
    raises: the blocks of the files before it have been printed, then the
    title and the underline of that file, and nothing else; the files after
    it are not looked at, no summary is printed, and the status is 1. *)
Theorem run_stops_at_first_exception (prog : str) (before : list str)
  (path : str) (after : list str) (results : list (list str * list str))
  (e : exn) :
  open_errors fs ->
  Forall2 (fun p r => validate_vtk_file fs p = Ok r) before results ->
  validate_vtk_file fs path = Raise e ->
  run fs (prog :: before ++ path :: after)
  = (run_blocks before results
       ++ [ [LF] ++ s2u "Validating: " ++ path;
            times 45%N (12 + length path)%nat ],
     1).
Proof.
  intros Hopen Hall Hp. unfold run.
  rewrite (main_aborted prog before path after results e Hall Hp).
  now rewrite (validate_raises_status path e Hopen Hp).
Qed.

(** X4.  A run in which every validation returns prints, in the order of
    the arguments, one block per file (title, underline, the errors or "No
    errors found", the warnings if any, the status line) and then the
    summary, and nothing else. *)
Theorem run_report_layout (prog : str) (paths : list str)
  (results : list (list str * list str)) :
  paths <> [] ->
  Forall2 (fun path r => validate_vtk_file fs path = Ok r) paths results ->
  run fs (prog :: paths)
  = (run_blocks paths results
       ++ summary (length paths) (error_total results),
     if error_total results =? 0 then 0 else 1).
Proof.
  intros Hne Hall. unfold run.
  now rewrite (main_completed prog paths results Hne Hall).
Qed.

End RunProperties.

(** X14.  The search for the section returns -1 exactly when no line
    begins with CELL_DATA, and otherwise the index of the first line that
    does; it is never past the last line. *)
Theorem find_cell_data_first_match (lines : list str) :
  (find_cell_data 0 lines = -1
   <-> forall line, In line lines -> ~ begins_with line CELL_DATA)
  /\ (forall i0, find_cell_data 0 lines = Z.of_nat i0
                 <-> first_cell_data lines i0)
  /\ -1 <= find_cell_data 0 lines < Z.of_nat (length lines).
Proof.
  destruct (first_cell_data_cases lines) as [Hnone | [j Hj]].
  - rewrite (find_cell_data_none lines 0 Hnone).
    split; [tauto |]. split; [| lia].
    intros i0. split; [lia|].
    intros [[line [Hline Hb]] _]. exfalso.
    apply (Hnone line); [now apply nth_error_In with i0 | exact Hb].
  - rewrite (find_cell_data_first lines 0 j Hj). cbn [Z.add].
    assert (j < length lines)%nat as Hlt.
    { destruct Hj as [[line [Hline _]] _]. apply nth_error_Some. congruence. }
    split; [| split; [| lia]].
    + split; [lia|]. intros Hnone. exfalso.
      destruct Hj as [[line [Hline Hb]] _].
      apply (Hnone line); [now apply nth_error_In with j | exact Hb].
    + intros i0. split.
      * intros E. assert (j = i0) as <- by lia. exact Hj.
      * intros Hi0. now rewrite (first_cell_data_unique _ _ _ Hi0 Hj).
Qed.

(* ================================================================== *)
(** ** The further properties on the example files                     *)
(* ================================================================== *)

Lemma examples_open_errors : open_errors MoreExamples.files.
Proof.
  intros path e H. unfold MoreExamples.files, Examples.files in H.
  repeat (destruct (str_eqb path _); [discriminate H || (injection H as <-; now left) |]).
  discriminate H.
Qed.

Lemma run_status_zero_iff_witness :
  snd (run MoreExamples.files [s2u "validate_vtk.py"; s2u "complete.vtk"]) = 0
  <-> tl [s2u "validate_vtk.py"; s2u "complete.vtk"] <> []
      /\ Forall (fun path => exists warnings,
                    validate_vtk_file MoreExamples.files path = Ok ([], warnings))
                (tl [s2u "validate_vtk.py"; s2u "complete.vtk"]).
Proof.
  apply (run_status_zero_iff MoreExamples.files
           [s2u "validate_vtk.py"; s2u "complete.vtk"]).
  exact examples_open_errors.
Defined.

Lemma run_status_is_0_or_1_witness :
  snd (run MoreExamples.files [s2u "validate_vtk.py"; s2u "locked.vtk"]) = 0
  \/ snd (run MoreExamples.files [s2u "validate_vtk.py"; s2u "locked.vtk"]) = 1.
Proof.
  apply (run_status_is_0_or_1 MoreExamples.files
           [s2u "validate_vtk.py"; s2u "locked.vtk"]).
  exact examples_open_errors.
Defined.

Lemma run_stops_at_first_exception_witness :
  run MoreExamples.files
      (s2u "validate_vtk.py"
         :: [s2u "complete.vtk"] ++ s2u "empty.vtk" :: [s2u "commented.vtk"])
  = (run_blocks [s2u "complete.vtk"] [([], [])]
       ++ [ [LF] ++ s2u "Validating: " ++ s2u "empty.vtk";
            times 45%N (12 + length (s2u "empty.vtk"))%nat ],
     1).
Proof.
  apply (run_stops_at_first_exception MoreExamples.files
           (s2u "validate_vtk.py") [s2u "complete.vtk"] (s2u "empty.vtk")
           [s2u "commented.vtk"] [([], [])] IndexError).
  - exact examples_open_errors.
  - repeat constructor.
  - reflexivity.
Defined.

Lemma run_report_layout_witness :
  run Examples.files (s2u "validate_vtk.py" :: tl RunExamples.argv)
  = (run_blocks (tl RunExamples.argv) RunExamples.results
       ++ summary (length (tl RunExamples.argv))
                  (error_total RunExamples.results),
     if error_total RunExamples.results =? 0 then 0 else 1).
Proof.
  apply (run_report_layout Examples.files (s2u "validate_vtk.py")
           (tl RunExamples.argv) RunExamples.results).
  - discriminate.
  - repeat constructor.
Defined.

Lemma no_error_iff_witness :
  (exists warnings,
      validate_vtk_file Examples.files (s2u "complete.vtk") = Ok ([], warnings))
  <-> begins_with (hd [] Examples.complete) HEADER_PREFIX
      /\ forall i0 i raw,
           first_cell_data (hd [] Examples.complete :: tl Examples.complete) i0 ->
           (i0 <= i)%nat ->
           nth_error (hd [] Examples.complete :: tl Examples.complete) i = Some raw ->
           begins_with (strip raw) HASH ->
           preceded_by_lookup_table
             (hd [] Examples.complete :: tl Examples.complete) i.
Proof.
  apply (no_error_iff Examples.files (s2u "complete.vtk")
           (hd [] Examples.complete) (tl Examples.complete)).
  reflexivity.
Defined.

Lemma comment_error_line_bounds_witness :
  exists i0, first_cell_data Examples.commented i0
             /\ Z.of_nat i0 + 1 < 3 <= Z.of_nat (length Examples.commented).
Proof.
  apply (comment_error_line_bounds Examples.files (s2u "commented.vtk")
           Examples.commented [comment_msg 3 (s2u "# stray")]
           (map section_msg required_sections) 3 (s2u "# stray")).
  - reflexivity.
  - reflexivity.
  - left. reflexivity.
Defined.

Lemma comment_error_excerpt_shape_witness :
  begins_with (s2u "# stray") HASH /\ (length (s2u "# stray") <= 50)%nat.
Proof.
  apply (comment_error_excerpt_shape Examples.files (s2u "commented.vtk")
           Examples.commented [comment_msg 3 (s2u "# stray")]
           (map section_msg required_sections) 3 (s2u "# stray")).
  - reflexivity.
  - reflexivity.
  - left. reflexivity.
Defined.

Lemma errors_in_line_order_witness :
  exists numbers warnings,
    validate_vtk_file Examples.files (s2u "commented.vtk")
    = Ok (header_errors (hd [] Examples.commented)
            ++ map (fun i => comment_msg (Z.of_nat i + 1)
                               (slice_to 50
                                  (strip (nth i (hd [] Examples.commented
                                                   :: tl Examples.commented) []))))
                   numbers,
          warnings)
    /\ StronglySorted lt numbers.
Proof.
  apply (errors_in_line_order Examples.files (s2u "commented.vtk")
           (hd [] Examples.commented) (tl Examples.commented)).
  reflexivity.
Defined.

Lemma second_comment_line_is_reported_witness :
  exists errors warnings,
    validate_vtk_file MoreExamples.files (s2u "two.vtk") = Ok (errors, warnings)
    /\ In (comment_msg (Z.of_nat 4 + 1) (slice_to 50 (strip (ln "# second"))))
          errors.
Proof.
  apply (second_comment_line_is_reported MoreExamples.files (s2u "two.vtk")
           MoreExamples.two_comments 1 3 (ln "# first") (ln "# second")).
  - reflexivity.
  - apply first_cell_data_of_find. reflexivity.
  - lia.
  - reflexivity.
  - reflexivity.
  - apply startswith_iff. reflexivity.
  - apply startswith_iff. reflexivity.
Defined.

Lemma errors_kept_when_lines_are_appended_witness :
  exists errors warnings later warnings',
    validate_vtk_file MoreExamples.files (s2u "commented.vtk")
    = Ok (errors, warnings)
    /\ validate_vtk_file MoreExamples.files (s2u "longer.vtk")
       = Ok (errors ++ later, warnings').
Proof.
  apply (errors_kept_when_lines_are_appended MoreExamples.files
           (s2u "commented.vtk") (s2u "longer.vtk")
           Examples.commented MoreExamples.appended).
  - reflexivity.
  - reflexivity.
  - discriminate.
Defined.

Lemma section_warnings_of_nonempty_file_witness :
  exists errors warnings,
    validate_vtk_file Examples.files (s2u "indented.vtk") = Ok (errors, warnings)
    /\ warnings
       = map section_msg
           (filter (fun s => negb (section_found
                                     (hd [] Examples.indented :: tl Examples.indented) s))
                   required_sections)
    /\ forall section, In section required_sections ->
         (count_occ str_eq_dec warnings (section_msg section) = 1%nat
          <-> ~ section_present
                  (hd [] Examples.indented :: tl Examples.indented) section)
         /\ (count_occ str_eq_dec warnings (section_msg section) = 0%nat
             <-> section_present
                   (hd [] Examples.indented :: tl Examples.indented) section).
Proof.
  apply (section_warnings_of_nonempty_file Examples.files (s2u "indented.vtk")
           (hd [] Examples.indented) (tl Examples.indented)).
  reflexivity.
Defined.

Lemma readable_file_raises_iff_empty_witness :
  validate_vtk_file Examples.files (s2u "empty.vtk") = Raise IndexError
  <-> @nil str = [] /\ IndexError = IndexError.
Proof.
  apply (readable_file_raises_iff_empty Examples.files (s2u "empty.vtk")
           [] IndexError).
  reflexivity.
Defined.

Lemma warnings_depend_on_first_20_lines_witness :
  exists errors1 errors2 warnings,
    validate_vtk_file MoreExamples.files (s2u "long_a.vtk")
    = Ok (errors1, warnings)
    /\ validate_vtk_file MoreExamples.files (s2u "long_b.vtk")
       = Ok (errors2, warnings).
Proof.
  apply (warnings_depend_on_first_20_lines MoreExamples.files
           (s2u "long_a.vtk") (s2u "long_b.vtk")
           MoreExamples.long_a MoreExamples.long_b).
  - reflexivity.
  - reflexivity.
  - discriminate.
  - discriminate.
  - reflexivity.
Defined.

(* ================================================================== *)
(** ** Two calls of [validate_vtk_file] on one heap                    *)
(* ================================================================== *)

Section Repeated.

Lemma update_app (h objs : Stateful.heap) (k : nat) (f : list str -> list str) :
  Stateful.update (h ++ objs) (length h + k)%nat f = h ++ Stateful.update objs k f.
Proof.
  induction h as [|l h IH]; [reflexivity|].
  cbn [app length Nat.add Stateful.update]. now rewrite IH.
Qed.

Lemma append_at (h objs : Stateful.heap) (k : nat) (x : str) :
  Stateful.list_append (length h + k)%nat x (h ++ objs)
  = (Ok tt, h ++ Stateful.update objs k (fun l => l ++ [x])).
Proof.
  unfold Stateful.list_append. now rewrite update_app.
Qed.

Lemma append_at_0 (h : Stateful.heap) (e : list str) (rest : Stateful.heap) (x : str) :
  Stateful.list_append (length h) x (h ++ e :: rest) = (Ok tt, h ++ (e ++ [x]) :: rest).
Proof.
  rewrite <- (Nat.add_0_r (length h)) at 1. now rewrite append_at.
Qed.

Lemma read_at (h objs : Stateful.heap) (k : nat) :
  Stateful.list_read (length h + k)%nat (h ++ objs) = (Ok (nth k objs []), h ++ objs).
Proof.
  unfold Stateful.list_read. now rewrite app_nth2_plus.
Qed.

Lemma deref_new (h suffix : Stateful.heap) (k : nat) :
  Stateful.deref (h ++ suffix) (length h + k)%nat = nth_error suffix k.
Proof.
  unfold Stateful.deref. rewrite nth_error_app2 by lia. f_equal. lia.
Qed.

(** The comment loop appends to the object [errors] what the loop of
    [check_comments] appends to its accumulator, and touches no other
    object. *)
Lemma comment_loop_on_heap (lines : list str) (h : Stateful.heap) (rest : Stateful.heap)
  (indices : list Z) :
  forall e,
    exists e',
      Stateful.for_each indices (Stateful.comment_step lines (length h)) (h ++ e :: rest)
      = (match check_comments lines indices e with
         | Ok _ => Ok tt
         | Raise x => Raise x
         end,
         h ++ e' :: rest)
      /\ forall e1, check_comments lines indices e = Ok e1 -> e' = e1.
Proof.
  induction indices as [|i indices IH]; intros e.
  - exists e. split; [reflexivity | now intros e1 [= <-]].
  - cbn [Stateful.for_each check_comments]. unfold Stateful.bindM at 1, Stateful.comment_step.
    unfold Stateful.bindM at 1, Stateful.lift.
    destruct (getitem lines i) as [raw|x]; cbn [bind].
    2:{ exists e. split; [reflexivity | discriminate]. }
    unfold Stateful.bindM at 1.
    destruct (comment_condition lines i (strip raw)) as [[|]|x]; cbn [bind].
    + rewrite append_at_0.
      apply (IH (e ++ [comment_msg (i + 1) (slice_to 50 (strip raw))])).
    + unfold Stateful.ret. apply (IH e).
    + exists e. split; [reflexivity | discriminate].
Qed.

(** The inner loop over [required_sections] for one line. *)
Lemma scan_line_on_heap (h : Stateful.heap) (e w : list str) (line : str)
  (sections : list str) :
  forall f,
    Stateful.for_each sections
      (fun section =>
         if contains line section
         then Stateful.list_append (length h + 2)%nat section else Stateful.ret tt)
      (h ++ [e; w; f])
    = (Ok tt,
       h ++ [e; w;
             fold_left
               (fun found section =>
                  if contains line section then found ++ [section] else found)
               sections f]).
Proof.
  induction sections as [|s sections IH]; intros f; [reflexivity|].
  cbn [Stateful.for_each fold_left]. unfold Stateful.bindM.
  destruct (contains line s).
  - rewrite append_at. cbn [Stateful.update]. apply IH.
  - unfold Stateful.ret. apply IH.
Qed.

(** The loop over the first 20 lines. *)
Lemma scan_sections_on_heap (h : Stateful.heap) (e w : list str) (ls : list str) :
  forall f,
    Stateful.for_each ls
      (fun line =>
         Stateful.for_each required_sections
           (fun section =>
              if contains line section
              then Stateful.list_append (length h + 2)%nat section else Stateful.ret tt))
      (h ++ [e; w; f])
    = (Ok tt,
       h ++ [e; w; fold_left (fun found line => scan_line line found) ls f]).
Proof.
  induction ls as [|l ls IH]; intros f; [reflexivity|].
  cbn [Stateful.for_each fold_left]. unfold Stateful.bindM.
  rewrite scan_line_on_heap. apply IH.
Qed.

(** The loop that appends the warnings reads [found_sections] and leaves it
    as it is. *)
Lemma report_missing_on_heap (h : Stateful.heap) (e f : list str)
  (sections : list str) :
  forall w,
    Stateful.for_each sections
      (fun section =>
         Stateful.bindM (Stateful.list_read (length h + 2)%nat)
           (fun found =>
              if negb (list_contains found section)
              then Stateful.list_append (length h + 1)%nat (section_msg section)
              else Stateful.ret tt))
      (h ++ [e; w; f])
    = (Ok tt,
       h ++ [e;
             fold_left
               (fun warnings section =>
                  if negb (list_contains f section)
                  then warnings ++ [section_msg section] else warnings)
               sections w;
             f]).
Proof.
  induction sections as [|s sections IH]; intros w; [reflexivity|].
  cbn [Stateful.for_each fold_left]. unfold Stateful.bindM at 1. unfold Stateful.bindM at 1.
  rewrite read_at. cbn [nth].
  destruct (negb (list_contains f s)).
  - rewrite append_at. cbn [Stateful.update]. apply IH.
  - unfold Stateful.ret. apply IH.
Qed.

(** The body of the function on the two new lists: it returns their
    references when [validate_lines] returns, their items are then the
    errors and the warnings of [validate_lines], and the objects that were
    there before are as they were. *)
Lemma validate_lines_on_heap (lines : list str) (h : Stateful.heap) :
  exists suffix,
    Stateful.validate_lines lines (length h) (length h + 1)%nat (h ++ [[]; []])
    = (match validate_lines lines with
       | Ok _ => Ok (length h, (length h + 1)%nat)
       | Raise x => Raise x
       end,
       h ++ suffix)
    /\ forall errors warnings,
         validate_lines lines = Ok (errors, warnings) ->
         nth_error suffix 0 = Some errors /\ nth_error suffix 1 = Some warnings.
Proof.
  unfold Stateful.validate_lines, validate_lines.
  unfold Stateful.bindM at 1, Stateful.lift.
  destruct (getitem lines 0) as [first|x]; cbn [bind].
  2:{ exists [[]; []]. split; [reflexivity | discriminate]. }
  unfold Stateful.bindM at 1.
  set (e0 := if negb (startswith first HEADER_PREFIX)
             then [] ++ [header_msg] else []).
  assert ((if negb (startswith first HEADER_PREFIX)
           then Stateful.list_append (length h) header_msg else Stateful.ret tt)
            (h ++ [[]; []])
          = (Ok tt, h ++ [e0; []])) as ->.
  { unfold e0. destruct (negb (startswith first HEADER_PREFIX)).
    - now rewrite append_at_0.
    - reflexivity. }
  unfold Stateful.bindM at 1.
  set (r := if 0 <=? find_cell_data 0 lines
            then check_comments lines
                   (range (find_cell_data 0 lines) (Z.of_nat (length lines))) e0
            else Ok e0).
  assert (exists e',
             (if 0 <=? find_cell_data 0 lines
              then Stateful.for_each
                     (range (find_cell_data 0 lines) (Z.of_nat (length lines)))
                     (Stateful.comment_step lines (length h))
              else Stateful.ret tt) (h ++ [e0; []])
             = (match r with Ok _ => Ok tt | Raise x => Raise x end,
                h ++ [e'; []])
             /\ forall e1, r = Ok e1 -> e' = e1) as [e' [-> He']].
  { unfold r. destruct (0 <=? find_cell_data 0 lines).
    - apply comment_loop_on_heap.
    - exists e0. split; [reflexivity | now intros e1 [= <-]]. }
  destruct r as [e1|x]; cbn [bind].
  2:{ exists [e'; []]. split; [reflexivity | discriminate]. }
  rewrite (He' e1 eq_refl).
  unfold Stateful.bindM at 1, Stateful.new_list.
  rewrite length_app, <- List.app_assoc. cbn [length app].
  unfold Stateful.bindM at 1. rewrite scan_sections_on_heap.
  unfold Stateful.bindM at 1. rewrite report_missing_on_heap.
  unfold Stateful.ret.
  exists [e1; report_missing (scan_sections lines) []; scan_sections lines].
  split; [reflexivity|].
  intros errors warnings [= <- <-]. split; reflexivity.
Qed.

(** A call on any heap: the objects it found are left as they were, the
    lists it returns are new objects, and their items are the errors and
    the warnings of [validate_vtk_file]. *)
Lemma validate_on_heap (fs : filesystem) (path : str) (h : Stateful.heap) :
  exists r suffix,
    Stateful.validate_vtk_file fs path h = (r, h ++ suffix)
    /\ Stateful.observed (r, h ++ suffix) = Some (validate_vtk_file fs path)
    /\ Stateful.fresh_in h r.
Proof.
  unfold Stateful.validate_vtk_file, validate_vtk_file.
  unfold Stateful.bindM at 1, Stateful.new_list. unfold Stateful.bindM at 1.
  rewrite length_app, <- List.app_assoc. cbn [length app].
  destruct (fs path) as [|e|lines].
  - unfold Stateful.bindM at 1. rewrite length_app, <- List.app_assoc. cbn [length app].
    unfold Stateful.bindM at 1. rewrite length_app, <- List.app_assoc. cbn [length app].
    unfold Stateful.ret. eexists _, _. split; [reflexivity|].
    split.
    + unfold Stateful.observed. now rewrite !deref_new.
    + cbn [Stateful.fresh_in]. lia.
  - unfold Stateful.lift. eexists _, _. split; [reflexivity|]. split; reflexivity.
  - destruct (validate_lines_on_heap lines h) as [suffix [Hrun Hitems]].
    rewrite Hrun. eexists _, _. split; [reflexivity|].
    destruct (validate_lines lines) as [[errors warnings]|x].
    + destruct (Hitems errors warnings eq_refl) as [He Hw]. split.
      * unfold Stateful.observed.
        rewrite <- (Nat.add_0_r (length h)) at 1.
        now rewrite !deref_new, He, Hw.
      * cbn [Stateful.fresh_in]. lia.
    + split; reflexivity.
Qed.

Lemma observed_kept (r : result (Stateful.ref * Stateful.ref)) (h more : Stateful.heap)
  (v : result (list str * list str)) :
  Stateful.observed (r, h) = Some v -> Stateful.observed (r, h ++ more) = Some v.
Proof.
  destruct r as [[e w]|x]; [| trivial].
  unfold Stateful.observed, Stateful.deref.
  destruct (nth_error h e) as [errors|] eqn:He; [| discriminate].
  destruct (nth_error h w) as [warnings|] eqn:Hw; [| discriminate].
  intros H.
  rewrite !nth_error_app1, He, Hw; [exact H | |];
    apply nth_error_Some; congruence.
Qed.

(** C9.  Two calls of [validate_vtk_file] one after the other, the second
    on the heap the first one left, with the file at the path the same for
    both: the second call returns lists with the same items in the same
    order as the first, or raises the same exception; these are the
    findings of [validate_vtk_file]; the second call makes new list objects
    and leaves the lists of the first call as they were; and the same
    findings come out on any other heap, whatever was done to the lists in
    between. *)
Theorem validate_twice_identical (fs1 fs2 : filesystem) (path : str)
  (h0 : Stateful.heap) :
  fs1 path = fs2 path ->
  let first := Stateful.validate_vtk_file fs1 path h0 in
  let second := Stateful.validate_vtk_file fs2 path (snd first) in
  Stateful.observed second = Stateful.observed first
  /\ Stateful.observed first = Some (validate_vtk_file fs1 path)
  /\ Stateful.observed (fst first, snd second) = Stateful.observed first
  /\ Stateful.fresh_in (snd first) (fst second)
  /\ forall h, Stateful.observed (Stateful.validate_vtk_file fs2 path h) = Stateful.observed first.
Proof.
  intros Hsame first second.
  assert (validate_vtk_file fs2 path = validate_vtk_file fs1 path) as Hpure
      by (unfold validate_vtk_file; now rewrite Hsame).
  destruct (validate_on_heap fs1 path h0) as [r1 [s1 [H1 [O1 _]]]].
  assert (first = (r1, h0 ++ s1)) as Hfirst by exact H1.
  destruct (validate_on_heap fs2 path (h0 ++ s1)) as [r2 [s2 [H2 [O2 F2]]]].
  assert (second = (r2, (h0 ++ s1) ++ s2)) as Hsecond
      by (unfold second; rewrite Hfirst; exact H2).
  rewrite Hsecond, Hfirst. cbn [fst snd].
  rewrite O1, O2, Hpure.
  split; [reflexivity | split; [reflexivity | split; [| split]]].
  - now apply observed_kept.
  - exact F2.
  - intros h. destruct (validate_on_heap fs2 path h) as [r [s [H [O _]]]].
    now rewrite H, O, Hpure.
Qed.

End Repeated.

(** A call on a heap that already holds a list: the list is left alone,
    the errors and the warnings are the objects 1 and 2, and object 3 is
    [found_sections]. *)
Example validate_on_used_heap :
  Stateful.validate_vtk_file Examples.files (s2u "indented.vtk")
                             [[s2u "kept"]]
  = (Ok (1%nat, 2%nat),
     [ [s2u "kept"];
       [header_msg];
       map section_msg [s2u "ASCII"; s2u "POINTS"; s2u "CELLS"; s2u "CELL_TYPES"];
       [s2u "DATASET"] ]).
Proof. reflexivity. Qed.

Lemma validate_twice_identical_witness :
  let first :=
    Stateful.validate_vtk_file Examples.files (s2u "commented.vtk") [] in
  let second :=
    Stateful.validate_vtk_file MoreExamples.files (s2u "commented.vtk")
                               (snd first) in
  Stateful.observed second = Stateful.observed first
  /\ Stateful.observed first
     = Some (validate_vtk_file Examples.files (s2u "commented.vtk"))
  /\ Stateful.observed (fst first, snd second) = Stateful.observed first
  /\ Stateful.fresh_in (snd first) (fst second)
  /\ forall h,
       Stateful.observed
         (Stateful.validate_vtk_file MoreExamples.files (s2u "commented.vtk") h)
       = Stateful.observed first.
Proof.
  apply (validate_twice_identical Examples.files MoreExamples.files
           (s2u "commented.vtk") []).
  reflexivity.
Defined.
